(** * qbittorrent-api-wrapper: session, dispatch and payload encoding

    A shallow embedding of class [QBittorrentClient] of [src/index.ts] and of
    the parts of the JavaScript platform it is written against: truthiness,
    [Array.prototype.join], [JSON.parse], [Blob], [FormData], [Headers],
    [URLSearchParams] and the [ofetch] call.

    - Strings are byte strings (UTF-8 text); buffers are lists of bytes;
      numbers are integers.
    - A thrown value is a constructor name and a message ([Thrown]); an
      evaluation completes with [Return] or [Throw].
    - The asynchronous methods run in a state-and-exception monad [M] over a
      [World]: the client instance, the list of HTTP calls issued so far, and
      the console.  Each [await] is a sequencing point.
    - The remote side is a [Server]: a function from the calls made so far
      and the current call to a [Reply], which either rejects (a transport
      fault, an error status) or resolves.

    Definitions come first; the properties, each with the claim it settles,
    follow. *)

From Stdlib Require Import String Ascii List ZArith Bool Lia Arith.
From Stdlib.Strings Require Import Byte.
From Stdlib Require Import DecimalString.
Import ListNotations.
Open Scope list_scope.
Open Scope string_scope.

Set Warnings "-register-all".

(* ================================================================== *)
(** ** JavaScript values and helpers *)
(* ================================================================== *)

Module Js.

(** The double-quote character, U+0022. *)
Definition dquote : ascii := "034"%char.

(** JavaScript strings are modelled as byte strings (UTF-8 text). *)
Definition nonempty (s : string) : bool :=
  match s with EmptyString => false | String _ _ => true end.

(** Truthiness ([ToBoolean]) of the optional values the client tests. *)
Definition truthy_string (o : option string) : bool :=
  match o with Some s => nonempty s | None => false end.

Definition truthy_bool (o : option bool) : bool :=
  match o with Some b => b | None => false end.

(** Numbers are restricted to integers: speed limits, counts, offsets. *)
Definition truthy_number (o : option Z) : bool :=
  match o with Some n => negb (Z.eqb n 0) | None => false end.

(** [Boolean.prototype.toString]. *)
Definition bool_toString (b : bool) : string :=
  if b then "true" else "false".

(** [Number.prototype.toString] on an integer (decimal digits; JavaScript
    switches to exponent notation from 10^21 on, which is out of range for
    the limits and counts modelled here). *)
Definition number_toString (n : Z) : string :=
  NilZero.string_of_int (Z.to_int n).

(** Interpolation of an array index in a template literal. *)
Definition index_toString (n : nat) : string :=
  NilZero.string_of_uint (Nat.to_uint n).

(** [Array.prototype.join] on an array of strings. *)
Fixpoint join (sep : string) (l : list string) : string :=
  match l with
  | [] => EmptyString
  | [x] => x
  | x :: rest => x ++ sep ++ join sep rest
  end.

(** A value that is either one [A] or an array of them
    ([string | string[]], [TorrentFile | TorrentFile[]]). *)
Inductive OneOrMany (A : Type) : Type :=
| One (a : A)
| Many (l : list A).
Arguments One {A} a.
Arguments Many {A} l.

(** ASCII lower-casing, as [Blob] and [Headers] apply it. *)
Definition lower_char (c : ascii) : ascii :=
  let n := nat_of_ascii c in
  if ((65 <=? n) && (n <=? 90))%nat then ascii_of_nat (n + 32) else c.

Fixpoint lower (s : string) : string :=
  match s with
  | EmptyString => EmptyString
  | String c r => String (lower_char c) (lower r)
  end.

(** [s.startsWith(p)], returning what follows the prefix. *)
Fixpoint strip_prefix (p s : string) : option string :=
  match p, s with
  | EmptyString, _ => Some s
  | String a p', String b s' =>
      if Ascii.eqb a b then strip_prefix p' s' else None
  | String _ _, EmptyString => None
  end.


(** What a [throw] carries: the constructor name and the message. *)
Inductive ErrorName : Type :=
| ErrorN | SyntaxErrorN | TypeErrorN | FetchErrorN.

Record Thrown : Type := mkThrown { name : ErrorName; message : string }.

Definition Error (m : string) : Thrown := mkThrown ErrorN m.
Definition SyntaxError (m : string) : Thrown := mkThrown SyntaxErrorN m.
Definition TypeError (m : string) : Thrown := mkThrown TypeErrorN m.
Definition FetchError (m : string) : Thrown := mkThrown FetchErrorN m.

Definition name_toString (n : ErrorName) : string :=
  match n with
  | ErrorN => "Error"
  | SyntaxErrorN => "SyntaxError"
  | TypeErrorN => "TypeError"
  | FetchErrorN => "FetchError"
  end.

(** [Error.prototype.toString], used by interpolation of a caught error. *)
Definition toString (e : Thrown) : string :=
  match message e with
  | EmptyString => name_toString (name e)
  | m => name_toString (name e) ++ ": " ++ m
  end.

(** Completion of an evaluation: a value or a thrown error. *)
Inductive Outcome (A : Type) : Type :=
| Return (a : A)
| Throw (e : Thrown).
Arguments Return {A} a.
Arguments Throw {A} e.

End Js.
Export Js.

(* ================================================================== *)
(** ** JSON.parse *)
(* ================================================================== *)

Module Json.

(** Parsed JSON.  A number keeps its lexeme; an object keeps its members
    in source order ([get_prop] resolves duplicates as JavaScript does). *)
Inductive t : Type :=
| JNull
| JBool (b : bool)
| JNumber (lexeme : string)
| JString (s : string)
| JArray (items : list t)
| JObject (members : list (string * t)).

(** Property lookup on a parsed object: the last duplicate wins. *)
Fixpoint get_prop (k : string) (ms : list (string * t)) : option t :=
  match ms with
  | [] => None
  | (k', v) :: rest =>
      match get_prop k rest with
      | Some v' => Some v'
      | None => if String.eqb k k' then Some v else None
      end
  end.

Inductive Parsed (A : Type) : Type :=
| OutOfFuel
| Malformed
| Good (a : A) (rest : string).
Arguments OutOfFuel {A}.
Arguments Malformed {A}.
Arguments Good {A} a rest.

Definition is_ws (c : ascii) : bool :=
  match c with
  | " "%char | "009"%char | "010"%char | "013"%char => true
  | _ => false
  end.

Fixpoint skip_ws (s : string) : string :=
  match s with
  | EmptyString => EmptyString
  | String c r => if is_ws c then skip_ws r else s
  end.

Definition is_digit (c : ascii) : bool :=
  let n := nat_of_ascii c in ((48 <=? n) && (n <=? 57))%nat.

(** The longest prefix of digits, and what follows it. *)
Fixpoint digits (s : string) : string * string :=
  match s with
  | EmptyString => (EmptyString, EmptyString)
  | String c r =>
      if is_digit c
      then let (d, rest) := digits r in (String c d, rest)
      else (EmptyString, s)
  end.

(** [digits] that must not be empty. *)
Definition digits1 (s : string) : option (string * string) :=
  match digits s with
  | (EmptyString, _) => None
  | (d, rest) => Some (d, rest)
  end.

(** int = "0" | digit1-9 digit*  *)
Definition int_part (s : string) : option (string * string) :=
  match strip_prefix "0" s with
  | Some r => Some ("0", r)
  | None => digits1 s
  end.

Definition frac_part (s : string) : option (string * string) :=
  match strip_prefix "." s with
  | Some r =>
      match digits1 r with
      | Some (d, rest) => Some ("." ++ d, rest)
      | None => None
      end
  | None => Some (EmptyString, s)
  end.

Definition exp_digits (mark : string) (r : string)
  : option (string * string) :=
  match digits1 r with
  | Some (d, rest) => Some (mark ++ d, rest)
  | None => None
  end.

Definition exp_sign (e : string) (r : string) : option (string * string) :=
  match strip_prefix "+" r with
  | Some r' => exp_digits (e ++ "+") r'
  | None =>
      match strip_prefix "-" r with
      | Some r' => exp_digits (e ++ "-") r'
      | None => exp_digits e r
      end
  end.

Definition exp_part (s : string) : option (string * string) :=
  match strip_prefix "e" s with
  | Some r => exp_sign "e" r
  | None =>
      match strip_prefix "E" s with
      | Some r => exp_sign "E" r
      | None => Some (EmptyString, s)
      end
  end.

Definition unsigned_number (s : string) : option (string * string) :=
  match int_part s with
  | None => None
  | Some (i, r1) =>
      match frac_part r1 with
      | None => None
      | Some (f, r2) =>
          match exp_part r2 with
          | None => None
          | Some (e, r3) => Some (i ++ f ++ e, r3)
          end
      end
  end.

Definition number (s : string) : option (string * string) :=
  match strip_prefix "-" s with
  | Some r =>
      match unsigned_number r with
      | Some (n, rest) => Some ("-" ++ n, rest)
      | None => None
      end
  | None => unsigned_number s
  end.

Definition hex_value (c : ascii) : option nat :=
  let n := nat_of_ascii c in
  if ((48 <=? n) && (n <=? 57))%nat then Some (n - 48)
  else if ((65 <=? n) && (n <=? 70))%nat then Some (n - 55)
  else if ((97 <=? n) && (n <=? 102))%nat then Some (n - 87)
  else None.

Definition hex4 (a b c d : ascii) : option nat :=
  match hex_value a, hex_value b, hex_value c, hex_value d with
  | Some x, Some y, Some z, Some w => Some (((x * 16 + y) * 16 + z) * 16 + w)
  | _, _, _, _ => None
  end.

(** UTF-8 bytes of one UTF-16 code unit (a surrogate is encoded by itself). *)
Definition utf8 (n : nat) : string :=
  if (n <? 128)%nat then String (ascii_of_nat n) EmptyString
  else if (n <? 2048)%nat then
    String (ascii_of_nat (192 + n / 64))
      (String (ascii_of_nat (128 + n mod 64)) EmptyString)
  else
    String (ascii_of_nat (224 + n / 4096))
      (String (ascii_of_nat (128 + (n / 64) mod 64))
         (String (ascii_of_nat (128 + n mod 64)) EmptyString)).

Definition escape (c : ascii) : option ascii :=
  match c with
  | "034"%char => Some "034"%char
  | "\"%char => Some "\"%char
  | "/"%char => Some "/"%char
  | "b"%char => Some "008"%char
  | "f"%char => Some "012"%char
  | "n"%char => Some "010"%char
  | "r"%char => Some "013"%char
  | "t"%char => Some "009"%char
  | _ => None
  end.

(** The characters of a string literal after its opening quote, up to and
    including the closing quote. *)
Fixpoint string_body (s : string) : option (string * string) :=
  match s with
  | EmptyString => None
  | String c r =>
      if Ascii.eqb c dquote then Some (EmptyString, r)
      else if Ascii.eqb c "\"%char then
        match r with
        | EmptyString => None
        | String e r' =>
            if Ascii.eqb e "u"%char then
              match r' with
              | String h1 (String h2 (String h3 (String h4 r''))) =>
                  match hex4 h1 h2 h3 h4, string_body r'' with
                  | Some n, Some (str, rest) => Some (utf8 n ++ str, rest)
                  | _, _ => None
                  end
              | _ => None
              end
            else
              match escape e, string_body r' with
              | Some x, Some (str, rest) => Some (String x str, rest)
              | _, _ => None
              end
        end
      else if (nat_of_ascii c <? 32)%nat then None
      else
        match string_body r with
        | Some (str, rest) => Some (String c str, rest)
        | None => None
        end
  end.

Definition of_option {A} (o : option (A * string)) : Parsed A :=
  match o with
  | Some (a, rest) => Good a rest
  | None => Malformed
  end.

Definition pmap {A B} (f : A -> B) (p : Parsed A) : Parsed B :=
  match p with
  | Good a rest => Good (f a) rest
  | Malformed => Malformed
  | OutOfFuel => OutOfFuel
  end.

Definition quote : string := String dquote EmptyString.

(** The scalar values: a string, a literal or a number. *)
Definition scalar (s : string) : Parsed t :=
  match strip_prefix quote s with
  | Some r =>
      match string_body r with
      | Some (str, rest) => Good (JString str) rest
      | None => Malformed
      end
  | None =>
      match strip_prefix "true" s with
      | Some r => Good (JBool true) r
      | None =>
          match strip_prefix "false" s with
          | Some r => Good (JBool false) r
          | None =>
              match strip_prefix "null" s with
              | Some r => Good JNull r
              | None =>
                  match number s with
                  | Some (n, rest) => Good (JNumber n) rest
                  | None => Malformed
                  end
              end
          end
      end
  end.

(** Recursive descent; [fuel] bounds the number of nested calls. *)
Fixpoint value (fuel : nat) (s : string) : Parsed t :=
  match fuel with
  | O => OutOfFuel
  | S fuel' =>
      match strip_prefix "{" (skip_ws s) with
      | Some r =>
          match strip_prefix "}" (skip_ws r) with
          | Some r' => Good (JObject []) r'
          | None => pmap JObject (members fuel' (skip_ws r))
          end
      | None =>
          match strip_prefix "[" (skip_ws s) with
          | Some r =>
              match strip_prefix "]" (skip_ws r) with
              | Some r' => Good (JArray []) r'
              | None => pmap JArray (elements fuel' (skip_ws r))
              end
          | None => scalar (skip_ws s)
          end
      end
  end

with elements (fuel : nat) (s : string) : Parsed (list t) :=
  match fuel with
  | O => OutOfFuel
  | S fuel' =>
      match value fuel' s with
      | Good v r =>
          match strip_prefix "," (skip_ws r) with
          | Some r' => pmap (cons v) (elements fuel' r')
          | None =>
              match strip_prefix "]" (skip_ws r) with
              | Some r' => Good [v] r'
              | None => Malformed
              end
          end
      | Malformed => Malformed
      | OutOfFuel => OutOfFuel
      end
  end

with members (fuel : nat) (s : string) : Parsed (list (string * t)) :=
  match fuel with
  | O => OutOfFuel
  | S fuel' =>
      match strip_prefix quote (skip_ws s) with
      | None => Malformed
      | Some r =>
          match string_body r with
          | None => Malformed
          | Some (k, r1) =>
              match strip_prefix ":" (skip_ws r1) with
              | None => Malformed
              | Some r2 =>
                  match value fuel' r2 with
                  | Good v r3 =>
                      match strip_prefix "," (skip_ws r3) with
                      | Some r4 => pmap (cons (k, v)) (members fuel' r4)
                      | None =>
                          match strip_prefix "}" (skip_ws r3) with
                          | Some r4 => Good [(k, v)] r4
                          | None => Malformed
                          end
                      end
                  | Malformed => Malformed
                  | OutOfFuel => OutOfFuel
                  end
              end
          end
      end
  end.

(** A successful parse leaves less than it was given. *)
Definition consumes {A} (p : Parsed A) (s : string) : Prop :=
  match p with
  | Good _ r => String.length r < String.length s
  | Malformed | OutOfFuel => True
  end.

(** The bound on nesting was not what stopped the parser. *)
Definition fueled {A} (p : Parsed A) : Prop := p <> OutOfFuel.

(** Fuel that always suffices (lemma [JsonFuel.value_fuel]). *)
Definition fuel_for (txt : string) : nat := 2 * String.length txt + 1.

(** The text of the [SyntaxError] raised on malformed input. *)
Definition syntax_error (txt : string) : Thrown :=
  SyntaxError (quote ++ txt ++ quote ++ " is not valid JSON").

(** [JSON.parse(txt)]. *)
Definition parse (txt : string) : Outcome t :=
  match value (fuel_for txt) txt with
  | Good v rest =>
      match skip_ws rest with
      | EmptyString => Return v
      | String _ _ => Throw (syntax_error txt)
      end
  | Malformed | OutOfFuel => Throw (syntax_error txt)
  end.

End Json.


(* ================================================================== *)
(** ** The web platform objects the client builds *)
(* ================================================================== *)

Module Web.

(** *** Headers *)

Definition Headers : Type := list (string * string).

(** [headers.get(name)]: names compare case-insensitively and the values
    of a repeated header are combined with a comma and a space. *)
Definition Headers_get (h : Headers) (name : string) : option string :=
  match filter (fun e => String.eqb (lower (fst e)) (lower name)) h with
  | [] => None
  | found => Some (join ", " (map snd found))
  end.

(** *** The pattern /SID=([^;]+)/ *)

Fixpoint until_semicolon (s : string) : string :=
  match s with
  | EmptyString => EmptyString
  | String c r =>
      if Ascii.eqb c ";"%char then EmptyString
      else String c (until_semicolon r)
  end.

(** [s.match(/SID=([^;]+)/)?.[1]]: the leftmost place where [SID=] is
    followed by at least one character other than [;], and the longest run
    of such characters from there. *)
Fixpoint match_SID (s : string) : option string :=
  match s with
  | EmptyString => None
  | String _ r =>
      match strip_prefix "SID=" s with
      | Some after =>
          match until_semicolon after with
          | EmptyString => match_SID r
          | v => Some v
          end
      | None => match_SID r
      end
  end.

(** *** Blob *)

Record Blob : Type := mkBlob { blob_bytes : list byte; blob_type : string }.

Inductive BlobPart : Type :=
| PartString (s : string)
| PartBuffer (bytes : list byte)
| PartBlob (b : Blob).

Definition part_bytes (p : BlobPart) : list byte :=
  match p with
  | PartString s => list_byte_of_string s
  | PartBuffer bytes => bytes
  | PartBlob b => blob_bytes b
  end.

Definition printable (c : ascii) : bool :=
  let n := nat_of_ascii c in ((32 <=? n) && (n <=? 126))%nat.

Fixpoint all_printable (s : string) : bool :=
  match s with
  | EmptyString => true
  | String c r => printable c && all_printable r
  end.

(** The [type] option of the Blob constructor: lower-cased, or dropped
    when it holds a character outside U+0020..U+007E. *)
Definition normalize_type (ty : string) : string :=
  if all_printable ty then lower ty else EmptyString.

(** [new Blob(parts, { type })]. *)
Definition new_Blob (parts : list BlobPart) (ty : string) : Blob :=
  {| blob_bytes := concat (map part_bytes parts);
     blob_type := normalize_type ty |}.

(** *** FormData *)

Inductive FormValue : Type :=
| Text (s : string)
| File (b : Blob) (filename : string).

Definition FormData : Type := list (string * FormValue).

(** [formData.append(name, value)] and [append(name, blob, filename)]. *)
Definition append (fd : FormData) (name : string) (v : FormValue) : FormData :=
  (fd ++ [(name, v)])%list.

(** [formData.getAll(name)]. *)
Definition getAll (name : string) (fd : FormData) : list FormValue :=
  map snd (filter (fun e => String.eqb (fst e) name) fd).

(** *** URLSearchParams *)

Definition URLSearchParams : Type := list (string * string).

Definition params_append (q : URLSearchParams) (name value : string)
  : URLSearchParams :=
  (q ++ [(name, value)])%list.

(** [query.getAll(name)]. *)
Definition params_getAll (name : string) (q : URLSearchParams) : list string :=
  map snd (filter (fun e => String.eqb (fst e) name) q).

Definition hex_digit (n : nat) : ascii :=
  if (n <? 10)%nat then ascii_of_nat (48 + n) else ascii_of_nat (55 + n).

Definition is_alnum (c : ascii) : bool :=
  let n := nat_of_ascii c in
  (((48 <=? n) && (n <=? 57)) || ((65 <=? n) && (n <=? 90))
   || ((97 <=? n) && (n <=? 122)))%nat.

(** Bytes the application/x-www-form-urlencoded serializer leaves as is. *)
Definition unreserved (c : ascii) : bool :=
  is_alnum c
  || Ascii.eqb c "*"%char || Ascii.eqb c "-"%char
  || Ascii.eqb c "."%char || Ascii.eqb c "_"%char.

Fixpoint form_encode (s : string) : string :=
  match s with
  | EmptyString => EmptyString
  | String c r =>
      if unreserved c then String c (form_encode r)
      else if Ascii.eqb c " "%char then String "+"%char (form_encode r)
      else
        let n := nat_of_ascii c in
        String "%"%char
          (String (hex_digit (n / 16))
             (String (hex_digit (n mod 16)) (form_encode r)))
  end.

(** [query.toString()]. *)
Fixpoint params_toString (q : URLSearchParams) : string :=
  match q with
  | [] => EmptyString
  | [(k, v)] => form_encode k ++ "=" ++ form_encode v
  | (k, v) :: rest =>
      form_encode k ++ "=" ++ form_encode v ++ "&" ++ params_toString rest
  end.

(** *** Reading a query string back, as the receiving side does *)

(** Percent-decoding, with [+] read as a space. *)
Fixpoint form_decode (s : string) : string :=
  match s with
  | EmptyString => EmptyString
  | String c r =>
      if Ascii.eqb c "+"%char then String " "%char (form_decode r)
      else if Ascii.eqb c "%"%char then
        match r with
        | String h1 (String h2 r') =>
            match Json.hex_value h1, Json.hex_value h2 with
            | Some a, Some b =>
                String (ascii_of_nat (16 * a + b)) (form_decode r')
            | _, _ => String c (form_decode r)
            end
        | _ => String c (form_decode r)
        end
      else String c (form_decode r)
  end.

(** [s.includes(c)] for one character. *)
Fixpoint mentions (c : ascii) (s : string) : bool :=
  match s with
  | EmptyString => false
  | String c' r => Ascii.eqb c' c || mentions c r
  end.

(** [s.split(sep)] for a one-character separator. *)
Fixpoint split_on (sep : ascii) (s : string) : list string :=
  match s with
  | EmptyString => [EmptyString]
  | String c r =>
      if Ascii.eqb c sep then EmptyString :: split_on sep r
      else
        match split_on sep r with
        | h :: t => String c h :: t
        | [] => [String c EmptyString]
        end
  end.

(** A segment cut at its first [=]. *)
Fixpoint cut_pair (s : string) : string * string :=
  match s with
  | EmptyString => (EmptyString, EmptyString)
  | String c r =>
      if Ascii.eqb c "="%char then (EmptyString, r)
      else let (k, v) := cut_pair r in (String c k, v)
  end.

(** [new URLSearchParams(text)]: empty segments are skipped. *)
Definition params_parse (text : string) : URLSearchParams :=
  map (fun segment =>
         let (k, v) := cut_pair segment in (form_decode k, form_decode v))
      (filter nonempty (split_on "&"%char text)).

End Web.
Export Web.

(* ================================================================== *)
(** ** Data model of src/index.ts *)
(* ================================================================== *)

(** What the [buffer] property of a torrent file can hold at run time; the
    declared type is [Buffer | string], the code inspects more. *)
Inductive BufferValue : Type :=
| StringValue (s : string)                  (* typeof buffer === 'string' *)
| NodeBuffer (bytes : list byte)            (* Buffer.isBuffer(buffer) *)
| ArrayBufferValue (bytes : list byte)      (* buffer instanceof ArrayBuffer *)
| SharedArrayBufferValue (bytes : list byte)(* instanceof SharedArrayBuffer *)
| TypedArrayValue (bytes : list byte)       (* a Uint8Array that is no Buffer *)
| OtherValue.                               (* null, a number, an object *)

Module TorrentFile.
Record t : Type := mk {
  filename : option string;
  name : option string;
  buffer : BufferValue;
  content_type : string
}.
End TorrentFile.

Module TorrentAddParameters.
Record t : Type := mk {
  urls : option (OneOrMany string);
  torrents : option (OneOrMany TorrentFile.t);
  savepath : option string;
  category : option string;
  paused : option bool;
  skip_checking : option bool;
  rename : option string;
  upLimit : option Z;
  dlLimit : option Z
}.
End TorrentAddParameters.

Module TorrentInfoParameters.
Inductive Filter : Type :=
| all | downloading | seeding | completed | paused | active | inactive.

Definition Filter_toString (f : Filter) : string :=
  match f with
  | all => "all"
  | downloading => "downloading"
  | seeding => "seeding"
  | completed => "completed"
  | paused => "paused"
  | active => "active"
  | inactive => "inactive"
  end.

Record t : Type := mk {
  filter : option Filter;
  category : option string;
  sort : option string;
  reverse : option bool;
  limit : option Z;
  offset : option Z;
  hashes : option (OneOrMany string)
}.

(** The default argument [{}]. *)
Definition empty : t := mk None None None None None None None.
End TorrentInfoParameters.

Record QBittorrentConfig : Type := mkConfig {
  config_baseUrl : string;
  config_username : option string;
  config_password : option string
}.

(** The fields of a [QBittorrentClient] instance. *)
Record QBittorrentClient : Type := mkClient {
  baseUrl : string;
  username : option string;
  password : option string;
  sid : option string
}.

Definition set_sid (this : QBittorrentClient) (s : option string)
  : QBittorrentClient :=
  {| baseUrl := baseUrl this; username := username this;
     password := password this; sid := s |}.

(* ================================================================== *)
(** ** The network *)
(* ================================================================== *)

Inductive Body : Type :=
| NoBody
| ObjectBody (fields : list (string * string))
| ParamsBody (params : URLSearchParams)
| FormBody (formData : FormData).

Record HttpCall : Type := mkCall {
  call_url : string;
  call_method : string;
  call_headers : list (string * string);
  call_body : Body
}.

(** Values a call can resolve to: [undefined], a value as [JSON.parse]
    builds them (a string body is [VJson (JString _)]), or an object with a
    [headers] property that is absent or a [Headers] instance - the shape
    [login] reads its token from. *)
Inductive Value : Type :=
| VUndefined
| VJson (j : Json.t)
| VResponse (headers : option Headers).

(** What the transport produced: the raw text of the body, when there is
    one, and the value [ofetch] resolves to when the caller supplies no
    [parseResponse]. *)
Record Response : Type := mkResponse {
  response_text : option string;
  response_data : Value
}.

Inductive Reply : Type :=
| Rejects (e : Thrown)
| Resolves (r : Response).

(** The remote side: an answer to each call, given the calls made so far. *)
Definition Server : Type := list HttpCall -> HttpCall -> Reply.

(** State threaded through the asynchronous methods: the client instance
    ([this]), the calls issued so far (oldest first) and the console. *)
Record World : Type := mkWorld {
  this : QBittorrentClient;
  calls : list HttpCall;
  console : list string
}.

Definition M (A : Type) : Type := World -> Outcome A * World.

Definition ret {A} (a : A) : M A := fun w => (Return a, w).

Definition throw {A} (e : Thrown) : M A := fun w => (Throw e, w).

Definition bind {A B} (m : M A) (k : A -> M B) : M B :=
  fun w =>
    match m w with
    | (Return a, w') => k a w'
    | (Throw e, w') => (Throw e, w')
    end.

(** [try { body } catch (error) { handler }]. *)
Definition try_catch {A} (body : M A) (handler : Thrown -> M A) : M A :=
  fun w =>
    match body w with
    | (Return a, w') => (Return a, w')
    | (Throw e, w') => handler e w'
    end.

Definition lift {A} (o : Outcome A) : M A := fun w => (o, w).

Definition get_this : M QBittorrentClient := fun w => (Return (this w), w).

Definition assign_sid (s : option string) : M unit :=
  fun w =>
    (Return tt,
     {| this := set_sid (this w) s; calls := calls w; console := console w |}).

Definition console_error (line : string) : M unit :=
  fun w =>
    (Return tt,
     {| this := this w; calls := calls w;
        console := (console w ++ [line])%list |}).

Declare Scope js_scope.
Delimit Scope js_scope with js.
Notation "x <- m ;; k" := (bind m (fun x => k))
  (at level 61, m at next level, right associativity) : js_scope.
Notation "m ;;; k" := (bind m (fun _ => k))
  (at level 61, right associativity) : js_scope.
Open Scope js_scope.

(* ================================================================== *)
(** ** class QBittorrentClient *)
(* ================================================================== *)

(** [new QBittorrentClient(config)]: one trailing slash is removed. *)
Fixpoint strip_trailing_slash (s : string) : string :=
  match s with
  | EmptyString => EmptyString
  | String c EmptyString =>
      if Ascii.eqb c "/"%char then EmptyString else s
  | String c r => String c (strip_trailing_slash r)
  end.

Definition constructor (config : QBittorrentConfig) : QBittorrentClient :=
  {| baseUrl := strip_trailing_slash (config_baseUrl config);
     username := config_username config;
     password := config_password config;
     sid := None |}.

(** [a || ''] on an optional string. *)
Definition or_empty (o : option string) : string :=
  match o with
  | Some s => s
  | None => EmptyString
  end.

(** [parseResponse: (txt) => txt === 'Ok.' ? true : JSON.parse(txt)]. *)
Definition parseResponse (txt : string) : Outcome Value :=
  if String.eqb txt "Ok." then Return (VJson (Json.JBool true))
  else
    match Json.parse txt with
    | Return j => Return (VJson j)
    | Throw e => Throw e
    end.

(** [response.headers?.get('set-cookie')?.match(/SID=([^;]+)/)?.[1]]. *)
Definition extract_sid (response : Value) : Outcome (option string) :=
  match response with
  | VResponse None => Return None
  | VResponse (Some h) =>
      match Headers_get h "set-cookie" with
      | None => Return None
      | Some cookie => Return (match_SID cookie)
      end
  | VUndefined =>
      Throw (TypeError "Cannot read properties of undefined (reading 'headers')")
  | VJson Json.JNull =>
      Throw (TypeError "Cannot read properties of null (reading 'headers')")
  | VJson (Json.JObject ms) =>
      match Json.get_prop "headers" ms with
      | None | Some Json.JNull => Return None
      | Some _ => Throw (TypeError "response.headers?.get is not a function")
      end
  | VJson _ => Return None
  end.

(** [response === 'Fails.']. *)
Definition is_Fails (response : Value) : bool :=
  match response with
  | VJson (Json.JString s) => String.eqb s "Fails."
  | _ => false
  end.

Section Methods.

Variable server : Server.

(** [ofetch(url, options)]: the call is recorded, then it rejects, or it
    resolves to the parsed body (to [undefined] when there is no body). *)
Definition ofetch (call : HttpCall)
    (parse : option (string -> Outcome Value)) : M Value :=
  fun w =>
    let w' := {| this := this w; calls := (calls w ++ [call])%list;
                 console := console w |} in
    match server (calls w) call with
    | Rejects e => (Throw e, w')
    | Resolves r =>
        match parse with
        | None => (Return (response_data r), w')
        | Some p =>
            match response_text r with
            | Some txt => (p txt, w')
            | None => (Return VUndefined, w')
            end
        end
    end.

Definition login_call (c : QBittorrentClient) : HttpCall :=
  {| call_url := baseUrl c ++ "/api/v2/auth/login";
     call_method := "POST";
     call_headers := [("Content-Type", "application/x-www-form-urlencoded")];
     call_body := ParamsBody [("username", or_empty (username c));
                              ("password", or_empty (password c))] |}.

(** [async login()].  Of the [console.error] call the fixed first argument
    is recorded. *)
Definition login : M unit :=
  c <- get_this ;;
  response <- ofetch (login_call c) None ;;
  if is_Fails response then throw (Error "Login failed")
  else
    extracted <- lift (extract_sid response) ;;
    assign_sid extracted ;;;
    if negb (truthy_string extracted) then
      console_error "SID extraction failed. Response headers:" ;;;
      throw (Error "Failed to extract session ID (SID).")
    else ret tt.

(** The guard of the lazy login in [request]. *)
Definition needs_login (c : QBittorrentClient) : bool :=
  negb (truthy_string (sid c))
  && truthy_string (username c) && truthy_string (password c).

Definition cookie_headers (c : QBittorrentClient) : list (string * string) :=
  match sid c with
  | Some s => if nonempty s then [("Cookie", "SID=" ++ s)] else []
  | None => []
  end.

(** [if (!this.sid && this.username && this.password) await this.login()]. *)
Definition lazy_login : M unit :=
  c <- get_this ;;
  if needs_login c then login else ret tt.

(** The call [request] hands to [ofetch], from the client as it is after
    the lazy login: the cookie header is read then.  (The source computes
    the URL before the login; no method assigns [baseUrl].) *)
Definition api_call (c : QBittorrentClient) (method endpoint : string)
    (data : Body) : HttpCall :=
  {| call_url := baseUrl c ++ "/api/v2/" ++ endpoint;
     call_method := method;
     call_headers := cookie_headers c;
     call_body := data |}.

(** [private async request(method, endpoint, data?)]. *)
Definition request (method endpoint : string) (data : Body) : M Value :=
  lazy_login ;;;
  c <- get_this ;;
  try_catch
    (ofetch (api_call c method endpoint data) (Some parseResponse))
    (fun error => throw (Error ("Request failed: " ++ toString error))).

(** [async logout()]. *)
Definition logout : M unit :=
  request "POST" "auth/logout" NoBody ;;;
  assign_sid None.

(** *** addTorrent *)

Definition newline : string := String "010"%char EmptyString.

(** Truthiness of a [T | T[]] property: an array is truthy even when
    empty, an object is truthy. *)
Definition truthy_urls (o : option (OneOrMany string)) : bool :=
  match o with
  | None => false
  | Some (One s) => nonempty s
  | Some (Many _) => true
  end.

Definition truthy_torrents (o : option (OneOrMany TorrentFile.t)) : bool :=
  match o with
  | None => false
  | Some _ => true
  end.

(** [Array.isArray(params.torrents) && params.torrents.length === 0]. *)
Definition empty_array {A} (o : option (OneOrMany A)) : bool :=
  match o with
  | Some (Many []) => true
  | _ => false
  end.

(** The guard of the first statement of [addTorrent]. *)
Definition rejected (params : TorrentAddParameters.t) : bool :=
  negb (truthy_torrents (TorrentAddParameters.torrents params))
  || empty_array (TorrentAddParameters.torrents params).

(** [Array.isArray(x) ? x : [x]]. *)
Definition as_array {A} (x : OneOrMany A) : list A :=
  match x with
  | One a => [a]
  | Many l => l
  end.

(** The chain of run-time type tests that picks the [BlobPart]. *)
Definition blob_part (torrent : TorrentFile.t) : Outcome BlobPart :=
  match TorrentFile.buffer torrent with
  | StringValue s => Return (PartString s)
  | NodeBuffer bytes => Return (PartBuffer bytes)
  | ArrayBufferValue bytes => Return (PartBuffer bytes)
  | SharedArrayBufferValue bytes =>
      Return (PartBlob (new_Blob [PartBuffer bytes]
                          (TorrentFile.content_type torrent)))
  | TypedArrayValue _ | OtherValue =>
      Throw (Error "Unsupported buffer type")
  end.

(** [`torrent_${index}.torrent`]. *)
Definition fallback_filename (index : nat) : string :=
  "torrent_" ++ index_toString index ++ ".torrent".

(** [torrent.filename || `torrent_${index}.torrent`]. *)
Definition part_filename (torrent : TorrentFile.t) (index : nat) : string :=
  if truthy_string (TorrentFile.filename torrent)
  then or_empty (TorrentFile.filename torrent)
  else fallback_filename index.

(** The callback of [torrents.forEach((torrent, index) => ...)]. *)
Definition append_torrent (formData : FormData) (torrent : TorrentFile.t)
    (index : nat) : Outcome FormData :=
  match blob_part torrent with
  | Throw e => Throw e
  | Return part =>
      let blob := new_Blob [part] (TorrentFile.content_type torrent) in
      Return (append formData "torrents"
                (File blob (part_filename torrent index)))
  end.

Fixpoint forEach_torrent (torrents : list TorrentFile.t) (index : nat)
    (formData : FormData) : Outcome FormData :=
  match torrents with
  | [] => Return formData
  | torrent :: rest =>
      match append_torrent formData torrent index with
      | Throw e => Throw e
      | Return formData' => forEach_torrent rest (S index) formData'
      end
  end.

(** [if (cond) formData.append(name, value)]. *)
Definition append_if (cond : bool) (name value : string) (fd : FormData)
  : FormData :=
  if cond then append fd name (Text value) else fd.

Definition string_field (name : string) (o : option string) (fd : FormData)
  : FormData :=
  append_if (truthy_string o) name (or_empty o) fd.

Definition bool_field (name : string) (o : option bool) (fd : FormData)
  : FormData :=
  append_if (truthy_bool o) name
    (match o with Some b => bool_toString b | None => EmptyString end) fd.

Definition number_field (name : string) (o : option Z) (fd : FormData)
  : FormData :=
  append_if (truthy_number o) name
    (match o with Some n => number_toString n | None => EmptyString end) fd.

Definition urls_field (o : option (OneOrMany string)) (fd : FormData)
  : FormData :=
  match o with
  | Some (One s) => append_if (nonempty s) "urls" s fd
  | Some (Many l) => append fd "urls" (Text (join newline l))
  | None => fd
  end.

Definition scalar_fields (params : TorrentAddParameters.t) (fd : FormData)
  : FormData :=
  let fd := string_field "savepath" (TorrentAddParameters.savepath params) fd in
  let fd := string_field "category" (TorrentAddParameters.category params) fd in
  let fd := bool_field "paused" (TorrentAddParameters.paused params) fd in
  let fd := bool_field "skip_checking"
              (TorrentAddParameters.skip_checking params) fd in
  let fd := string_field "rename" (TorrentAddParameters.rename params) fd in
  let fd := number_field "upLimit" (TorrentAddParameters.upLimit params) fd in
  number_field "dlLimit" (TorrentAddParameters.dlLimit params) fd.

(** The body of [addTorrent] up to the dispatch: validation, then the
    multipart form. *)
Definition addTorrent_formData (params : TorrentAddParameters.t)
  : Outcome FormData :=
  if rejected params
  then Throw (Error "At least one torrent or URL must be provided.")
  else
    let formData := urls_field (TorrentAddParameters.urls params) [] in
    match
      match TorrentAddParameters.torrents params with
      | Some ts => forEach_torrent (as_array ts) 0 formData
      | None => Return formData
      end
    with
    | Throw e => Throw e
    | Return formData => Return (scalar_fields params formData)
    end.

(** [async addTorrent(params)]. *)
Definition addTorrent (params : TorrentAddParameters.t) : M Value :=
  formData <- lift (addTorrent_formData params) ;;
  request "POST" "torrents/add" (FormBody formData).

(** *** getTorrentInfo *)

Definition query_if (cond : bool) (name value : string)
    (q : URLSearchParams) : URLSearchParams :=
  if cond then params_append q name value else q.

Definition hashes_value (h : OneOrMany string) : string :=
  match h with
  | One s => s
  | Many l => join "|" l
  end.

(** The query built by [getTorrentInfo]. *)
Definition getTorrentInfo_query (params : TorrentInfoParameters.t)
  : URLSearchParams :=
  let q := [] in
  let q := match TorrentInfoParameters.filter params with
           | Some f => params_append q "filter"
                         (TorrentInfoParameters.Filter_toString f)
           | None => q
           end in
  let q := query_if (truthy_string (TorrentInfoParameters.category params))
             "category" (or_empty (TorrentInfoParameters.category params)) q in
  let q := query_if (truthy_string (TorrentInfoParameters.sort params))
             "sort" (or_empty (TorrentInfoParameters.sort params)) q in
  let q := query_if (truthy_bool (TorrentInfoParameters.reverse params))
             "reverse"
             (match TorrentInfoParameters.reverse params with
              | Some b => bool_toString b
              | None => EmptyString
              end) q in
  let q := query_if (truthy_number (TorrentInfoParameters.limit params))
             "limit"
             (match TorrentInfoParameters.limit params with
              | Some n => number_toString n
              | None => EmptyString
              end) q in
  let q := query_if (truthy_number (TorrentInfoParameters.offset params))
             "offset"
             (match TorrentInfoParameters.offset params with
              | Some n => number_toString n
              | None => EmptyString
              end) q in
  match TorrentInfoParameters.hashes params with
  | Some h => query_if (truthy_urls (Some h)) "hashes" (hashes_value h) q
  | None => q
  end.

(** [async getTorrentInfo(params = {})]. *)
Definition getTorrentInfo (params : TorrentInfoParameters.t) : M Value :=
  request "GET"
    ("torrents/info?" ++ params_toString (getTorrentInfo_query params))
    NoBody.

End Methods.


(* ================================================================== *)
(** ** The failure classes of the specification *)
(* ================================================================== *)

(** The code throws plain [Error]s; the classes of the specification are
    told apart by the message. *)
Definition ValidationFailure : Thrown :=
  Error "At least one torrent or URL must be provided.".

Definition LoginRejected : Thrown := Error "Login failed".

Definition SidExtractionFailed : Thrown :=
  Error "Failed to extract session ID (SID).".

Definition AuthenticationFailure (e : Thrown) : Prop :=
  e = LoginRejected \/ e = SidExtractionFailed.


Definition RequestFailure (e : Thrown) : Prop :=
  exists text, e = Error ("Request failed: " ++ text).

(** The world after one more call has been issued. *)
Definition logged (w : World) (call : HttpCall) : World :=
  {| this := this w; calls := (calls w ++ [call])%list; console := console w |}.

(** The world after [this.sid = s]. *)
Definition with_sid (w : World) (s : option string) : World :=
  {| this := set_sid (this w) s; calls := calls w; console := console w |}.

(* ================================================================== *)
(** ** Outcomes of the two network steps *)
(* ================================================================== *)

(** What [login] does with the value its call resolves to. *)
Definition login_result (w : World) (v : Value) : Outcome unit * World :=
  let w1 := logged w (login_call (this w)) in
  if is_Fails v then (Throw LoginRejected, w1)
  else
    match extract_sid v with
    | Throw e => (Throw e, w1)
    | Return None =>
        (Throw SidExtractionFailed,
         {| this := set_sid (this w) None; calls := calls w1;
            console := (console w ++
                        ["SID extraction failed. Response headers:"])%list |})
    | Return (Some s) => (Return tt, with_sid w1 (Some s))
    end.

(** What [request] does once the lazy login is behind it. *)
Definition dispatch_result (server : Server) (w1 : World) (call : HttpCall)
  : Outcome Value * World :=
  match server (calls w1) call with
  | Rejects e =>
      (Throw (Error ("Request failed: " ++ toString e)), logged w1 call)
  | Resolves r =>
      match response_text r with
      | None => (Return VUndefined, logged w1 call)
      | Some txt =>
          match parseResponse txt with
          | Return v => (Return v, logged w1 call)
          | Throw e =>
              (Throw (Error ("Request failed: " ++ toString e)),
               logged w1 call)
          end
      end
  end.

(* ================================================================== *)
(** ** Notions of the specification *)
(* ================================================================== *)

(** "The urls field is empty or absent." *)
Definition urls_absent_or_empty (o : option (OneOrMany string)) : bool :=
  match o with
  | None => true
  | Some (One s) => negb (nonempty s)
  | Some (Many []) => true
  | Some (Many (_ :: _)) => false
  end.

(** "The torrents field is empty or absent." *)
Definition torrents_absent_or_empty (o : option (OneOrMany TorrentFile.t))
  : bool :=
  match o with
  | None => true
  | Some (One _) => false
  | Some (Many []) => true
  | Some (Many (_ :: _)) => false
  end.

(** "No session token can be extracted from the response": the extraction
    does not give a token, whether it gives nothing or throws. *)
Definition no_token (v : Value) : Prop :=
  forall t, extract_sid v <> Return (Some t).

(** "Both the urls field and the torrents field are empty or absent." *)
Definition no_sources (params : TorrentAddParameters.t) : bool :=
  urls_absent_or_empty (TorrentAddParameters.urls params)
  && torrents_absent_or_empty (TorrentAddParameters.torrents params).



(** The text fields a scalar option is to give: none when it is absent or
    falsy, one with the stringified value otherwise. *)
Definition string_entry (o : option string) : list FormValue :=
  match o with
  | Some (String c r) => [Text (String c r)]
  | Some EmptyString | None => []
  end.

Definition bool_entry (o : option bool) : list FormValue :=
  match o with
  | Some true => [Text "true"]
  | Some false | None => []
  end.

Definition number_entry (o : option Z) : list FormValue :=
  match o with
  | Some n => if Z.eqb n 0 then [] else [Text (number_toString n)]
  | None => []
  end.

(** The filename a unit is to get at a position of the list: its own when it
    has a non-empty one, the generated one otherwise. *)
Definition expected_filename (torrent : TorrentFile.t) (index : nat) : string :=
  match TorrentFile.filename torrent with
  | Some (String c r) => String c r
  | Some EmptyString | None =>
      "torrent_" ++ index_toString index ++ ".torrent"
  end.

(** The filenames of the file parts of a list of form values. *)
Fixpoint filenames (l : list FormValue) : list string :=
  match l with
  | [] => []
  | File _ f :: rest => f :: filenames rest
  | Text _ :: rest => filenames rest
  end.

(* ================================================================== *)
(** ** Concrete clients, servers and requests *)
(* ================================================================== *)

Module Sample.

(** A client that holds the session token [old]. *)
Definition holding : World :=
  {| this := {| baseUrl := "http://localhost:8080";
                username := Some "admin"; password := Some "password";
                sid := Some "old" |};
     calls := []; console := [] |}.

(** The client of the README, before its first call. *)
Definition fresh : World :=
  {| this := constructor
               {| config_baseUrl := "http://localhost:8080/";
                  config_username := Some "admin";
                  config_password := Some "password" |};
     calls := []; console := [] |}.

(** A server whose every answer has the given body; without a parser
    [ofetch] resolves to that text. *)
Definition answering (txt : string) : Server :=
  fun _ _ =>
    Resolves {| response_text := Some txt;
                response_data := VJson (Json.JString txt) |}.

(** A server that accepts the login and answers [Ok.] to everything. *)
Definition accepting : Server :=
  fun _ _ =>
    Resolves {| response_text := Some "Ok.";
                response_data :=
                  VResponse (Some [("set-cookie", "SID=s3cr3t; path=/")]) |}.

(** No parameter set. *)
Definition no_parameters : TorrentAddParameters.t :=
  TorrentAddParameters.mk None None None None None None None None None.

(** The request of the README: one magnet link, no torrent file. *)
Definition readme_request : TorrentAddParameters.t :=
  TorrentAddParameters.mk (Some (One "magnet:?xt=urn:btih:example"))
    None None None None None None None None.

Definition bencoded : string := "d8:announce0:e".

Definition unit_of (filename : option string) (buffer : BufferValue)
  : TorrentFile.t :=
  TorrentFile.mk filename None buffer "application/x-bittorrent".


Definition request_with (torrents : OneOrMany TorrentFile.t)
  : TorrentAddParameters.t :=
  TorrentAddParameters.mk None (Some torrents)
    None None None None None None None.

Definition text_unit : TorrentFile.t :=
  unit_of None (StringValue bencoded).

Definition shared_unit : TorrentFile.t :=
  unit_of None (SharedArrayBufferValue (list_byte_of_string bencoded)).

(** A unit whose filename is the empty string. *)
Definition empty_name_unit : TorrentFile.t :=
  unit_of (Some EmptyString) (NodeBuffer (list_byte_of_string bencoded)).

(** One torrent file, to be added not paused. *)
Definition not_paused : TorrentAddParameters.t :=
  TorrentAddParameters.mk None (Some (One text_unit))
    None None (Some false) None None None None.

(** One torrent file and every scalar option set to a truthy value. *)
Definition all_options : TorrentAddParameters.t :=
  TorrentAddParameters.mk None (Some (One text_unit))
    (Some "/downloads") (Some "movies") (Some true) (Some true)
    (Some "renamed") (Some 1024%Z) (Some 2048%Z).

(** The text [{"a":1}]. *)
Definition object_text : string :=
  "{" ++ Json.quote ++ "a" ++ Json.quote ++ ":1}".

(** The query [{ filter: 'downloading', hashes: ['a', 'b'] }]. *)
Definition downloading_a_b : TorrentInfoParameters.t :=
  TorrentInfoParameters.mk (Some TorrentInfoParameters.downloading)
    None None None None None (Some (Many ["a"; "b"])).

(** A server that cannot be reached. *)
Definition unreachable : Server :=
  fun _ _ => Rejects (FetchError "fetch failed").

End Sample.

(* ================================================================== *)
(** ** The remaining methods of the class *)
(* ================================================================== *)

(** [response === true]. *)
Definition is_true (v : Value) : bool :=
  match v with
  | VJson (Json.JBool true) => true
  | _ => false
  end.

Section OtherMethods.

Variable server : Server.

(** ToBoolean of the Number that a JSON number lexeme denotes.  The
    conversion of the lexeme to a double belongs to the platform and is
    taken as given. *)
Variable number_truthy : string -> bool.

(** ToBoolean of a resolved value, the test behind [!response]. *)
Definition truthy (v : Value) : bool :=
  match v with
  | VUndefined => false
  | VJson Json.JNull => false
  | VJson (Json.JBool b) => b
  | VJson (Json.JNumber n) => number_truthy n
  | VJson (Json.JString s) => nonempty s
  | VJson (Json.JArray _) => true
  | VJson (Json.JObject _) => true
  | VResponse _ => true
  end.

(** [async getAPIVersion()]. *)
Definition getAPIVersion : M Value :=
  request server "GET" "app/version" NoBody.

(** [async getAllData()]. *)
Definition getAllData : M Value :=
  request server "GET" "torrents/info" NoBody.

(** [async pauseTorrent(hash)]. *)
Definition pauseTorrent (hash : string) : M Value :=
  request server "POST" "torrents/pause" (ObjectBody [("hashes", hash)]).

(** [async resumeTorrent(hash)]. *)
Definition resumeTorrent (hash : string) : M Value :=
  request server "POST" "torrents/resume" (ObjectBody [("hashes", hash)]).

(** [async removeTorrent(hash, deleteData = false)]; [None] is the omitted
    second argument. *)
Definition removeTorrent (hash : string) (deleteData : option bool) : M Value :=
  let deleteData := match deleteData with Some b => b | None => false end in
  request server "POST" "torrents/delete"
    (ObjectBody [("hashes", hash); ("deleteFiles", bool_toString deleteData)]).

(** [async setCategory(torrentHash, category)]. *)
Definition setCategory (torrentHash category : string) : M unit :=
  response <- request server "POST" "torrents/setCategory"
                (ObjectBody [("hashes", torrentHash); ("category", category)]) ;;
  if negb (is_true response) then throw (Error "Failed to set category")
  else ret tt.

(** [async getTorrentPeers(torrentHash)]. *)
Definition getTorrentPeers (torrentHash : string) : M Value :=
  response <- request server "GET" ("torrents/peers?hash=" ++ torrentHash)
                NoBody ;;
  if negb (truthy response)
  then throw (Error "Failed to retrieve torrent peers")
  else ret response.

(** [async getPreferences()]. *)
Definition getPreferences : M Value :=
  response <- request server "GET" "app/preferences" NoBody ;;
  if negb (truthy response)
  then throw (Error "Failed to retrieve preferences")
  else ret response.

End OtherMethods.

(* ================================================================== *)
(** ** Notions used by the further properties *)
(* ================================================================== *)

(** The configuration of a client: what the constructor sets and no method
    assigns. *)
Definition same_config (c c' : QBittorrentClient) : Prop :=
  baseUrl c = baseUrl c' /\ username c = username c'
  /\ password c = password c'.

(** The token, when one is held, is not the empty string. *)
Definition token_ok (c : QBittorrentClient) : Prop :=
  sid c <> Some EmptyString.

(** Both credentials are configured and non-empty. *)
Definition has_credentials (c : QBittorrentClient) : bool :=
  truthy_string (username c) && truthy_string (password c).

(** The call of [request] as it is issued with a given list of headers. *)
Definition call_with (c : QBittorrentClient) (headers : list (string * string))
    (method endpoint : string) (data : Body) : HttpCall :=
  {| call_url := baseUrl c ++ "/api/v2/" ++ endpoint;
     call_method := method;
     call_headers := headers;
     call_body := data |}.

(** What a method leaves intact: the configuration is the same, a
    well-formed token stays well-formed, and the record of calls only grows,
    by at most two calls. *)
Definition extends (w w' : World) : Prop :=
  same_config (this w) (this w')
  /\ (token_ok (this w) -> token_ok (this w'))
  /\ exists l, calls w' = (calls w ++ l)%list /\ length l <= 2.

(** The public operations of a client, as a caller may invoke them. *)
Inductive Operation : Type :=
| Login
| Logout
| GetAPIVersion
| GetAllData
| AddTorrent (params : TorrentAddParameters.t)
| PauseTorrent (hash : string)
| ResumeTorrent (hash : string)
| RemoveTorrent (hash : string) (deleteData : option bool)
| GetTorrentInfo (params : TorrentInfoParameters.t)
| SetCategory (torrentHash category : string)
| GetTorrentPeers (torrentHash : string)
| GetPreferences.

(** The world after one operation has completed, normally or not. *)
Definition after (server : Server) (number_truthy : string -> bool)
    (op : Operation) (w : World) : World :=
  match op with
  | Login => snd (login server w)
  | Logout => snd (logout server w)
  | GetAPIVersion => snd (getAPIVersion server w)
  | GetAllData => snd (getAllData server w)
  | AddTorrent params => snd (addTorrent server params w)
  | PauseTorrent hash => snd (pauseTorrent server hash w)
  | ResumeTorrent hash => snd (resumeTorrent server hash w)
  | RemoveTorrent hash deleteData =>
      snd (removeTorrent server hash deleteData w)
  | GetTorrentInfo params => snd (getTorrentInfo server params w)
  | SetCategory torrentHash category =>
      snd (setCategory server torrentHash category w)
  | GetTorrentPeers torrentHash =>
      snd (getTorrentPeers server number_truthy torrentHash w)
  | GetPreferences => snd (getPreferences server number_truthy w)
  end.

(** The world after a sequence of operations, each awaited before the next
    is started. *)
Fixpoint after_all (server : Server) (number_truthy : string -> bool)
    (ops : list Operation) (w : World) : World :=
  match ops with
  | [] => w
  | op :: rest =>
      after_all server number_truthy rest (after server number_truthy op w)
  end.

(** The world of a client that was just constructed. *)
Definition created (config : QBittorrentConfig) : World :=
  {| this := constructor config; calls := []; console := [] |}.

(** Every character is a letter or a digit. *)
Fixpoint all_alnum (s : string) : bool :=
  match s with
  | EmptyString => true
  | String c r => is_alnum c && all_alnum r
  end.

(** The [urls] field a request is to give. *)
Definition urls_entry (o : option (OneOrMany string)) : list FormValue :=
  match o with
  | Some (Many l) => [Text (join (String "010"%char EmptyString) l)]
  | Some (One (String c r)) => [Text (String c r)]
  | Some (One EmptyString) | None => []
  end.

(** The name a scalar option contributes to the form: its own when the
    option is truthy, none otherwise. *)
Definition name_if (cond : bool) (name : string) : list string :=
  if cond then [name] else [].

(** The names of the fields of the form of a request, in order. *)
Definition field_names (params : TorrentAddParameters.t) : list string :=
  (name_if (truthy_urls (TorrentAddParameters.urls params)) "urls"
   ++ repeat "torrents"
        (match TorrentAddParameters.torrents params with
         | Some ts => length (as_array ts)
         | None => 0
         end)
   ++ name_if (truthy_string (TorrentAddParameters.savepath params)) "savepath"
   ++ name_if (truthy_string (TorrentAddParameters.category params)) "category"
   ++ name_if (truthy_bool (TorrentAddParameters.paused params)) "paused"
   ++ name_if (truthy_bool (TorrentAddParameters.skip_checking params))
        "skip_checking"
   ++ name_if (truthy_string (TorrentAddParameters.rename params)) "rename"
   ++ name_if (truthy_number (TorrentAddParameters.upLimit params)) "upLimit"
   ++ name_if (truthy_number (TorrentAddParameters.dlLimit params)) "dlLimit"
  )%list.

(** The parameter a string, boolean, number or hash option of a query is to
    give: none when absent or falsy. *)
Definition string_param (name : string) (o : option string)
  : URLSearchParams :=
  match o with
  | Some (String c r) => [(name, String c r)]
  | Some EmptyString | None => []
  end.

Definition bool_param (name : string) (o : option bool) : URLSearchParams :=
  match o with
  | Some true => [(name, "true")]
  | Some false | None => []
  end.

Definition number_param (name : string) (o : option Z) : URLSearchParams :=
  match o with
  | Some n => if Z.eqb n 0 then [] else [(name, number_toString n)]
  | None => []
  end.

Definition hashes_param (o : option (OneOrMany string)) : URLSearchParams :=
  match o with
  | Some (Many l) => [("hashes", join "|" l)]
  | Some (One (String c r)) => [("hashes", String c r)]
  | Some (One EmptyString) | None => []
  end.

Definition filter_param (o : option TorrentInfoParameters.Filter)
  : URLSearchParams :=
  match o with
  | Some f => [("filter", TorrentInfoParameters.Filter_toString f)]
  | None => []
  end.

Module More.

(** A client without credentials and without a token. *)
Definition anonymous : World :=
  {| this := constructor
               {| config_baseUrl := "http://localhost:8080";
                  config_username := None;
                  config_password := None |};
     calls := []; console := [] |}.

(** A server whose every answer has no body. *)
Definition silent : Server :=
  fun _ _ =>
    Resolves {| response_text := None; response_data := VUndefined |}.

(** A server that accepts the login and answers every other call with the
    given body. *)
Definition serving (txt : string) : Server :=
  fun _ _ =>
    Resolves {| response_text := Some txt;
                response_data :=
                  VResponse (Some [("set-cookie", "SID=s3cr3t; path=/")]) |}.

(** A number is truthy when its mantissa has a digit other than zero. *)
Fixpoint mantissa_nonzero (lexeme : string) : bool :=
  match lexeme with
  | EmptyString => false
  | String c r =>
      if Ascii.eqb c "e"%char || Ascii.eqb c "E"%char then false
      else
        (let n := nat_of_ascii c in (49 <=? n) && (n <=? 57))%nat
        || mantissa_nonzero r
  end.

(** The configuration of the README. *)
Definition readme_config : QBittorrentConfig :=
  {| config_baseUrl := "http://localhost:8080";
     config_username := Some "admin";
     config_password := Some "password" |}.

(** A session: a query, a logout, an upload and a failing query. *)
Definition session : list Operation :=
  [GetAPIVersion; Logout; AddTorrent Sample.all_options; GetPreferences].

(** The text ["v2.8.3"], quotes included. *)
Definition quoted_version : string := Json.quote ++ "v2.8.3" ++ Json.quote.

(** Two URLs, one torrent file and two scalar options. *)
Definition mixed : TorrentAddParameters.t :=
  TorrentAddParameters.mk
    (Some (Many ["magnet:?xt=urn:btih:a"; "magnet:?xt=urn:btih:b"]))
    (Some (One Sample.text_unit))
    (Some "/downloads") None (Some false) None None (Some 1024%Z) None.

(** A query whose falsy options are present. *)
Definition paged : TorrentInfoParameters.t :=
  TorrentInfoParameters.mk (Some TorrentInfoParameters.seeding)
    (Some "movies") None (Some false) (Some 50%Z) (Some 0%Z)
    (Some (One "abc")).

End More.

(* ================================================================== *)
(** ** Session: login *)
(* ================================================================== *)

Lemma match_SID_step (c : ascii) (r : string) :
  match_SID (String c r) =
  match strip_prefix "SID=" (String c r) with
  | Some after =>
      match until_semicolon after with
      | EmptyString => match_SID r
      | v => Some v
      end
  | None => match_SID r
  end.
Proof. reflexivity. Qed.

(** A token captured by the pattern is never the empty string. *)
Lemma match_SID_nonempty (s v : string) :
  match_SID s = Some v -> nonempty v = true.
Proof.
  induction s as [|c r IH]; [discriminate|].
  rewrite match_SID_step.
  destruct (strip_prefix "SID=" (String c r)) as [after|]; [|exact IH].
  destruct (until_semicolon after) eqn:E; [exact IH|].
  intros H; injection H as <-; reflexivity.
Qed.

(** Whatever is extracted is truthy. *)
Lemma extract_sid_truthy (v : Value) (s : string) :
  extract_sid v = Return (Some s) -> nonempty s = true.
Proof.
  destruct v as [|j|[h|]]; simpl; try discriminate.
  - destruct j; try discriminate.
    destruct (Json.get_prop "headers" members) as [[]|]; discriminate.
  - destruct (Headers_get h "set-cookie") as [cookie|]; [|discriminate].
    intros H; injection H as H. eapply match_SID_nonempty; eassumption.
Qed.

Lemma login_resolved (server : Server) (w : World) (r : Response) :
  server (calls w) (login_call (this w)) = Resolves r ->
  login server w = login_result w (response_data r).
Proof.
  intros H. unfold login, login_result, bind, get_this, ofetch. simpl.
  rewrite H. destruct (is_Fails (response_data r)); [reflexivity|].
  unfold lift. destruct (extract_sid (response_data r)) as [[s|]|e] eqn:E;
    simpl; try reflexivity.
  rewrite (extract_sid_truthy _ _ E). reflexivity.
Qed.

Lemma login_rejected (server : Server) (w : World) (e : Thrown) :
  server (calls w) (login_call (this w)) = Rejects e ->
  login server w = (Throw e, logged w (login_call (this w))).
Proof.
  intros H. unfold login, bind, get_this, ofetch. simpl. rewrite H. reflexivity.
Qed.

(** The only errors raised by the extraction itself are [TypeError]s. *)
Lemma extract_sid_throws (v : Value) (e : Thrown) :
  extract_sid v = Throw e -> name e = TypeErrorN.
Proof.
  destruct v as [|j|[h|]]; simpl.
  - intros H; injection H as <-; reflexivity.
  - destruct j; try discriminate.
    + intros H; injection H as <-; reflexivity.
    + destruct (Json.get_prop "headers" members) as [[]|];
        try discriminate; intros H; injection H as <-; reflexivity.
  - destruct (Headers_get h "set-cookie"); discriminate.
  - discriminate.
Qed.

Lemma AuthenticationFailure_name (e : Thrown) :
  AuthenticationFailure e -> name e = ErrorN.
Proof. intros [-> | ->]; reflexivity. Qed.

(** C3 (amended): when the login call resolves, [login] raises an
    authentication failure exactly when the resolved value is the string
    [Fails.] or the extraction of the token from its Set-Cookie header
    completes without a token.  In the first case the error is
    [Login failed] and the client is left as it was: a token held before the
    call is still held, no token is held if none was.  In the second case
    the error is the distinct [Failed to extract session ID (SID).]
    No token can be extracted in one more way, which is not an
    authentication failure: the extraction itself throws (the value is
    [undefined], [null], or has a [headers] value without [get]); [login]
    then throws that [TypeError] and leaves the client as it was. *)
Theorem login_authentication_failure
    (server : Server) (w : World) (r : Response) :
  server (calls w) (login_call (this w)) = Resolves r ->
  ((exists e w', login server w = (Throw e, w') /\ AuthenticationFailure e)
   <-> (is_Fails (response_data r) = true
        \/ extract_sid (response_data r) = Return None))
  /\ (is_Fails (response_data r) = true ->
      exists w', login server w = (Throw LoginRejected, w')
                 /\ this w' = this w)
  /\ (is_Fails (response_data r) = false ->
      extract_sid (response_data r) = Return None ->
      exists w', login server w = (Throw SidExtractionFailed, w'))
  /\ LoginRejected <> SidExtractionFailed
  /\ (no_token (response_data r)
      <-> (extract_sid (response_data r) = Return None
           \/ exists e, extract_sid (response_data r) = Throw e))
  /\ (forall e,
         extract_sid (response_data r) = Throw e ->
         is_Fails (response_data r) = false
         /\ name e = TypeErrorN
         /\ ~ AuthenticationFailure e
         /\ exists w', login server w = (Throw e, w') /\ this w' = this w).
Proof.
  intros H. rewrite (login_resolved _ _ _ H). unfold login_result.
  split; [split|split; [|split; [|split; [|split; [split|]]]]].
  - intros (e & w' & Hl & Ha).
    destruct (is_Fails (response_data r)); [now left|].
    destruct (extract_sid (response_data r)) as [[s|]|e'] eqn:E.
    + discriminate.
    + now right.
    + injection Hl as <- _. apply AuthenticationFailure_name in Ha.
      apply extract_sid_throws in E. congruence.
  - intros [Hf | He].
    + rewrite Hf. eexists _, _. split; [reflexivity | now left].
    + rewrite He. destruct (is_Fails (response_data r));
        eexists _, _; (split; [reflexivity|]); [now left | now right].
  - intros ->. eexists. split; reflexivity.
  - intros -> ->. eexists. reflexivity.
  - discriminate.
  - intros Hn. unfold no_token in Hn.
    destruct (extract_sid (response_data r)) as [[t|]|e].
    + now elim (Hn t).
    + now left.
    + right. now exists e.
  - intros Hx t. destruct Hx as [E | (e & E)]; rewrite E; discriminate.
  - intros e E.
    assert (Hf : is_Fails (response_data r) = false).
    { destruct (response_data r) as [|[]|]; try reflexivity; discriminate. }
    assert (Hn : name e = TypeErrorN) by exact (extract_sid_throws _ _ E).
    rewrite Hf, E. repeat split; try assumption.
    + intros Ha. apply AuthenticationFailure_name in Ha. congruence.
    + eexists. split; reflexivity.
Qed.

Lemma login_authentication_failure_witness :
  (exists w', login (Sample.answering "Fails.") Sample.holding
              = (Throw LoginRejected, w')
              /\ this w' = this Sample.holding)
  /\ (exists w', login (Sample.answering "Ok.") Sample.holding
                 = (Throw SidExtractionFailed, w'))
  /\ (exists e w', name e = TypeErrorN
                   /\ login More.silent Sample.holding = (Throw e, w')
                   /\ this w' = this Sample.holding).
Proof.
  split; [|split].
  - destruct (login_authentication_failure
                (Sample.answering "Fails.") Sample.holding _ eq_refl)
      as (_ & Ha & _).
    apply Ha. reflexivity.
  - destruct (login_authentication_failure
                (Sample.answering "Ok.") Sample.holding _ eq_refl)
      as (_ & _ & Hb & _).
    apply Hb; reflexivity.
  - destruct (login_authentication_failure
                More.silent Sample.holding _ eq_refl)
      as (_ & _ & _ & _ & _ & Hc).
    destruct (Hc _ eq_refl) as (_ & Hn & _ & w' & Hl & Ht).
    eexists _, w'. split; [exact Hn|]. split; [exact Hl | exact Ht].
Defined.

(** C3 as stated fails, in two ways.  A login answered [Fails.] on a client
    that holds a token raises the failure and the token is still held
    afterwards.  And a login whose call resolves to [undefined] (an answer
    without a body) yields no token, yet what [login] raises is a
    [TypeError], not an authentication failure. *)
Lemma login_claim_fails :
  (fst (login (Sample.answering "Fails.") Sample.holding)
   = Throw LoginRejected
   /\ sid (this (snd (login (Sample.answering "Fails.") Sample.holding)))
      = Some "old")
  /\ (no_token VUndefined
      /\ fst (login More.silent Sample.fresh)
         = Throw (TypeError
                    "Cannot read properties of undefined (reading 'headers')")
      /\ ~ AuthenticationFailure
             (TypeError
                "Cannot read properties of undefined (reading 'headers')")).
Proof.
  split; [split; reflexivity|]. split; [|split].
  - intros t. discriminate.
  - reflexivity.
  - intros [H | H]; discriminate H.
Qed.

(** C10: when the call resolves, is not answered [Fails.], and no token can
    be extracted, [login] raises the extraction failure and the client holds
    no token afterwards, whatever it held before. *)
Theorem login_extraction_failure_clears_sid
    (server : Server) (w : World) (r : Response) :
  server (calls w) (login_call (this w)) = Resolves r ->
  is_Fails (response_data r) = false ->
  extract_sid (response_data r) = Return None ->
  exists w', login server w = (Throw SidExtractionFailed, w')
             /\ sid (this w') = None.
Proof.
  intros H Hf He. rewrite (login_resolved _ _ _ H). unfold login_result.
  rewrite Hf, He. eexists. split; reflexivity.
Qed.

Lemma login_extraction_failure_clears_sid_witness :
  sid (this Sample.holding) = Some "old"
  /\ exists w', login (Sample.answering "Ok.") Sample.holding
                = (Throw SidExtractionFailed, w')
                /\ sid (this w') = None.
Proof.
  split; [reflexivity|].
  apply (login_extraction_failure_clears_sid
           (Sample.answering "Ok.") Sample.holding _ eq_refl);
    reflexivity.
Defined.

(* ================================================================== *)
(** ** Session: dispatch and logout *)
(* ================================================================== *)

Lemma request_dispatch (server : Server) (method endpoint : string)
    (data : Body) (w w1 : World) :
  lazy_login server w = (Return tt, w1) ->
  request server method endpoint data w =
  dispatch_result server w1 (api_call (this w1) method endpoint data).
Proof.
  intros H. unfold request, bind, dispatch_result. rewrite H.
  unfold get_this, try_catch, ofetch, throw, logged. simpl.
  destruct (server (calls w1) (api_call (this w1) method endpoint data))
    as [e|r]; [reflexivity|].
  destruct (response_text r) as [txt|]; [|reflexivity].
  destruct (parseResponse txt); reflexivity.
Qed.

Lemma request_login_throws (server : Server) (method endpoint : string)
    (data : Body) (w w1 : World) (e : Thrown) :
  lazy_login server w = (Throw e, w1) ->
  request server method endpoint data w = (Throw e, w1).
Proof. intros H. unfold request, bind. rewrite H. reflexivity. Qed.

Lemma lazy_login_skipped (server : Server) (w : World) :
  needs_login (this w) = false -> lazy_login server w = (Return tt, w).
Proof.
  intros H. unfold lazy_login, bind, get_this. rewrite H. reflexivity.
Qed.

(** Every completion of the dispatch phase that throws is a request failure. *)
Lemma dispatch_result_throws (server : Server) (w1 : World) (call : HttpCall)
    (e : Thrown) (w2 : World) :
  dispatch_result server w1 call = (Throw e, w2) -> RequestFailure e.
Proof.
  unfold dispatch_result.
  destruct (server (calls w1) call) as [e'|r].
  - intros H; injection H as <- _. eexists; reflexivity.
  - destruct (response_text r) as [txt|]; [|discriminate].
    destruct (parseResponse txt) as [v|e']; [discriminate|].
    intros H; injection H as <- _. eexists; reflexivity.
Qed.

(** C7 (amended): once the lazy login is behind it (not needed, or done),
    a transport fault of the dispatched HTTP call is caught and re-raised as
    the plain error [Request failed: <text of the fault>], and every error
    that leaves the dispatch phase is of that one shape. *)
Theorem request_wraps_transport_fault
    (server : Server) (method endpoint : string) (data : Body)
    (w w1 : World) :
  lazy_login server w = (Return tt, w1) ->
  (forall e,
      server (calls w1) (api_call (this w1) method endpoint data) = Rejects e ->
      request server method endpoint data w =
      (Throw (Error ("Request failed: " ++ toString e)),
       logged w1 (api_call (this w1) method endpoint data)))
  /\ (forall e w2,
         request server method endpoint data w = (Throw e, w2) ->
         RequestFailure e).
Proof.
  intros H. rewrite (request_dispatch _ _ _ _ _ _ H). split.
  - intros e He. unfold dispatch_result. rewrite He. reflexivity.
  - intros e w2. apply dispatch_result_throws.
Qed.

Lemma request_wraps_transport_fault_witness :
  request Sample.unreachable "GET" "app/version" NoBody Sample.holding =
  (Throw (Error "Request failed: FetchError: fetch failed"),
   logged Sample.holding
     (api_call (this Sample.holding) "GET" "app/version" NoBody)).
Proof.
  apply (proj1 (request_wraps_transport_fault
                  Sample.unreachable "GET" "app/version" NoBody
                  Sample.holding Sample.holding eq_refl)
           (FetchError "fetch failed")).
  reflexivity.
Defined.

(** C7 as stated fails: on a client that has credentials and no token the
    first dispatch logs in first, and a transport fault of that login call
    reaches the caller as the transport raised it. *)
Lemma request_leaks_login_transport_fault :
  fst (request Sample.unreachable "GET" "app/version" NoBody Sample.fresh)
  = Throw (FetchError "fetch failed")
  /\ ~ RequestFailure (FetchError "fetch failed").
Proof.
  split; [reflexivity|]. intros [text H]. discriminate H.
Qed.

(** C2 (amended): [logout] clears the token whenever its dispatch returns.
    After a [logout] that returns, no token is held; it returns whenever the
    answer to the dispatched call has no body, the body [Ok.] or a body that
    parses as JSON, whatever that JSON says.  When the dispatch throws,
    [logout] throws the same error and assigns nothing. *)
Theorem logout_clears_sid_on_return (server : Server) (w : World) :
  (forall w', logout server w = (Return tt, w') -> sid (this w') = None)
  /\ (forall w1 r,
         lazy_login server w = (Return tt, w1) ->
         server (calls w1) (api_call (this w1) "POST" "auth/logout" NoBody)
         = Resolves r ->
         (response_text r = None
          \/ exists txt v, response_text r = Some txt
                           /\ parseResponse txt = Return v) ->
         exists w', logout server w = (Return tt, w')
                    /\ sid (this w') = None)
  /\ (forall e w1,
         request server "POST" "auth/logout" NoBody w = (Throw e, w1) ->
         logout server w = (Throw e, w1)).
Proof.
  repeat split.
  - intros w'. unfold logout, bind.
    destruct (request server "POST" "auth/logout" NoBody w) as [[v|e] w1].
    + unfold assign_sid. intros H; injection H as <-. reflexivity.
    + discriminate.
  - intros w1 r Hl Hs Hbody. unfold logout, bind.
    rewrite (request_dispatch _ _ _ _ _ _ Hl). unfold dispatch_result.
    rewrite Hs. destruct Hbody as [-> | (txt & v & -> & ->)];
      eexists; split; reflexivity.
  - intros e w1 H. unfold logout, bind. rewrite H. reflexivity.
Qed.

Lemma logout_clears_sid_on_return_witness :
  sid (this Sample.holding) = Some "old"
  /\ exists w', logout Sample.accepting Sample.holding = (Return tt, w')
                /\ sid (this w') = None.
Proof.
  split; [reflexivity|].
  apply (proj1 (proj2 (logout_clears_sid_on_return
                         Sample.accepting Sample.holding))
           Sample.holding _ eq_refl eq_refl).
  right. exists "Ok.", (VJson (Json.JBool true)). split; reflexivity.
Defined.

(** C2 as stated fails: answered with the failure body [Fails.], which is
    not JSON, [logout] throws and the token is still held. *)
Lemma logout_failure_body_keeps_sid :
  fst (logout (Sample.answering "Fails.") Sample.holding)
  = Throw (Error ("Request failed: "
                  ++ toString (Json.syntax_error "Fails.")))
  /\ sid (this (snd (logout (Sample.answering "Fails.") Sample.holding)))
     = Some "old".
Proof. split; vm_compute; reflexivity. Qed.

(* ================================================================== *)
(** ** addTorrent: validation *)
(* ================================================================== *)

(** The guard looks at [torrents] only. *)
Lemma rejected_torrents (params : TorrentAddParameters.t) :
  rejected params
  = torrents_absent_or_empty (TorrentAddParameters.torrents params).
Proof.
  unfold rejected.
  destruct (TorrentAddParameters.torrents params) as [[t|[|t l]]|];
    reflexivity.
Qed.

(** A rejected request throws before any call is made. *)
Lemma addTorrent_rejected (server : Server) (params : TorrentAddParameters.t)
    (w : World) :
  rejected params = true ->
  addTorrent server params w = (Throw ValidationFailure, w).
Proof.
  intros H. unfold addTorrent, bind, lift, addTorrent_formData.
  rewrite H. reflexivity.
Qed.

(** C1 (the code departs from the claim): the request of the README carries
    one URL and no torrent file, so it is not without sources; [addTorrent]
    raises the validation failure on it, against any server and without
    issuing a call. *)
Theorem addTorrent_rejects_url_only :
  no_sources Sample.readme_request = false
  /\ forall (server : Server) (w : World),
       addTorrent server Sample.readme_request w = (Throw ValidationFailure, w).
Proof.
  split; [reflexivity|]. intros server w.
  apply addTorrent_rejected. reflexivity.
Qed.

(* ================================================================== *)
(** ** addTorrent: torrent file units *)
(* ================================================================== *)








(* ================================================================== *)
(** ** addTorrent: the fields of the form *)
(* ================================================================== *)

Lemma getAll_append (name n : string) (v : FormValue) (fd : FormData) :
  getAll name (append fd n v)
  = (getAll name fd ++ (if String.eqb n name then [v] else []))%list.
Proof.
  unfold getAll, append. rewrite filter_app, map_app. simpl.
  destruct (String.eqb n name); reflexivity.
Qed.

Lemma getAll_append_if (name n value : string) (cond : bool) (fd : FormData) :
  getAll name (append_if cond n value fd)
  = (getAll name fd
     ++ (if cond && String.eqb n name then [Text value] else []))%list.
Proof.
  unfold append_if. destruct cond; simpl.
  - apply getAll_append.
  - now rewrite app_nil_r.
Qed.

Lemma getAll_string_field (name n : string) (o : option string)
    (fd : FormData) :
  getAll name (string_field n o fd)
  = (getAll name fd
     ++ (if String.eqb n name then string_entry o else []))%list.
Proof.
  unfold string_field. rewrite getAll_append_if.
  destruct o as [[|c r]|]; simpl; destruct (String.eqb n name); reflexivity.
Qed.

Lemma getAll_bool_field (name n : string) (o : option bool) (fd : FormData) :
  getAll name (bool_field n o fd)
  = (getAll name fd
     ++ (if String.eqb n name then bool_entry o else []))%list.
Proof.
  unfold bool_field. rewrite getAll_append_if.
  destruct o as [[|]|]; simpl; destruct (String.eqb n name); reflexivity.
Qed.

Lemma getAll_number_field (name n : string) (o : option Z) (fd : FormData) :
  getAll name (number_field n o fd)
  = (getAll name fd
     ++ (if String.eqb n name then number_entry o else []))%list.
Proof.
  unfold number_field. rewrite getAll_append_if.
  destruct o as [z|]; simpl; [destruct (Z.eqb z 0); simpl|];
    destruct (String.eqb n name); reflexivity.
Qed.

Lemma getAll_urls_field (name : string) (o : option (OneOrMany string))
    (fd : FormData) :
  String.eqb "urls" name = false ->
  getAll name (urls_field o fd) = getAll name fd.
Proof.
  intros H. unfold urls_field. destruct o as [[u|l]|]; [| |reflexivity].
  - rewrite getAll_append_if, H, andb_false_r. apply app_nil_r.
  - rewrite getAll_append, H. apply app_nil_r.
Qed.

(** The loop over the units adds fields named [torrents] only. *)
Lemma getAll_forEach_torrent (name : string) (torrents : list TorrentFile.t) :
  String.eqb "torrents" name = false ->
  forall index fd fd',
    forEach_torrent torrents index fd = Return fd' ->
    getAll name fd' = getAll name fd.
Proof.
  intros H. induction torrents as [|t rest IH]; intros index fd fd'; simpl.
  - intros E; injection E as <-; reflexivity.
  - unfold append_torrent. destruct (blob_part t) as [part|e]; [|discriminate].
    intros E. rewrite (IH _ _ _ E), getAll_append, H. apply app_nil_r.
Qed.

(** A form that was built is the scalar fields on top of a form that holds
    [urls] and [torrents] fields only. *)
Lemma addTorrent_formData_shape (params : TorrentAddParameters.t)
    (fd : FormData) :
  addTorrent_formData params = Return fd ->
  exists fd1,
    fd = scalar_fields params fd1
    /\ (forall name,
           String.eqb "urls" name = false ->
           String.eqb "torrents" name = false ->
           getAll name fd1 = [])
    /\ match TorrentAddParameters.torrents params with
       | Some ts =>
           forEach_torrent (as_array ts) 0
             (urls_field (TorrentAddParameters.urls params) []) = Return fd1
       | None => False
       end.
Proof.
  unfold addTorrent_formData. rewrite rejected_torrents.
  destruct (TorrentAddParameters.torrents params) as [ts|] eqn:Ht;
    [|discriminate].
  destruct (torrents_absent_or_empty (Some ts)); [discriminate|].
  destruct (forEach_torrent (as_array ts) 0
              (urls_field (TorrentAddParameters.urls params) []))
    as [fd1|e] eqn:E; [|discriminate].
  intros H; injection H as <-. exists fd1. repeat split.
  intros name Hu Hn.
  rewrite (getAll_forEach_torrent name _ Hn _ _ _ E).
  now rewrite getAll_urls_field.
Qed.

Ltac scalar_field_chain :=
  unfold scalar_fields;
  repeat first [ rewrite getAll_string_field
               | rewrite getAll_bool_field
               | rewrite getAll_number_field ];
  simpl; rewrite ?app_nil_r.

(** C5 (amended): in the form that [addTorrent] builds, each of savepath,
    category, paused, skip_checking, rename, upLimit and dlLimit gives
    exactly one text field holding its stringified value if and only if it
    is present and truthy (a non-empty string, [true], a non-zero number);
    a field that is absent, or present with the value [false], [0] or the
    empty string, gives no field. *)
Theorem scalar_fields_iff_truthy (params : TorrentAddParameters.t)
    (fd : FormData) :
  addTorrent_formData params = Return fd ->
  getAll "savepath" fd = string_entry (TorrentAddParameters.savepath params)
  /\ getAll "category" fd = string_entry (TorrentAddParameters.category params)
  /\ getAll "paused" fd = bool_entry (TorrentAddParameters.paused params)
  /\ getAll "skip_checking" fd
     = bool_entry (TorrentAddParameters.skip_checking params)
  /\ getAll "rename" fd = string_entry (TorrentAddParameters.rename params)
  /\ getAll "upLimit" fd = number_entry (TorrentAddParameters.upLimit params)
  /\ getAll "dlLimit" fd = number_entry (TorrentAddParameters.dlLimit params).
Proof.
  intros H. destruct (addTorrent_formData_shape _ _ H) as (fd1 & -> & Hb & _).
  repeat split; scalar_field_chain; rewrite Hb; reflexivity.
Qed.

Lemma scalar_fields_iff_truthy_witness :
  exists fd,
    addTorrent_formData Sample.all_options = Return fd
    /\ getAll "savepath" fd = [Text "/downloads"]
    /\ getAll "category" fd = [Text "movies"]
    /\ getAll "paused" fd = [Text "true"]
    /\ getAll "skip_checking" fd = [Text "true"]
    /\ getAll "rename" fd = [Text "renamed"]
    /\ getAll "upLimit" fd = [Text "1024"]
    /\ getAll "dlLimit" fd = [Text "2048"].
Proof.
  eexists. split; [reflexivity|].
  apply (scalar_fields_iff_truthy Sample.all_options _ eq_refl).
Defined.

(** C5 as stated fails: [paused: false] is present in the request and the
    form has no [paused] field. *)
Lemma paused_false_is_omitted :
  TorrentAddParameters.paused Sample.not_paused = Some false
  /\ match addTorrent_formData Sample.not_paused with
     | Return fd => getAll "paused" fd = []
     | Throw _ => False
     end.
Proof. split; reflexivity. Qed.

(* ================================================================== *)
(** ** addTorrent: filenames of the torrent parts *)
(* ================================================================== *)

Lemma part_filename_expected (torrent : TorrentFile.t) (index : nat) :
  part_filename torrent index = expected_filename torrent index.
Proof.
  unfold part_filename, expected_filename, fallback_filename.
  destruct (TorrentFile.filename torrent) as [[|c r]|]; reflexivity.
Qed.

(** The loop appends one file part per unit, in order, the unit at position
    [k] of the list being handled with index [index + k]. *)
Lemma forEach_torrent_files (torrents : list TorrentFile.t) :
  forall index fd fd',
    forEach_torrent torrents index fd = Return fd' ->
    exists files,
      getAll "torrents" fd' = (getAll "torrents" fd ++ files)%list
      /\ length files = length torrents
      /\ forall k t,
           nth_error torrents k = Some t ->
           exists blob,
             nth_error files k
             = Some (File blob (expected_filename t (index + k))).
Proof.
  induction torrents as [|t rest IH]; intros index fd fd'; simpl.
  - intros E; injection E as <-. exists []. rewrite app_nil_r.
    repeat split. intros [|k] t; discriminate.
  - unfold append_torrent. destruct (blob_part t) as [part|e]; [|discriminate].
    intros E. destruct (IH _ _ _ E) as (files & Hg & Hlen & Hnth).
    eexists (File _ (part_filename t index) :: files). repeat split.
    + rewrite Hg, getAll_append. simpl. now rewrite <- app_assoc.
    + simpl. now rewrite Hlen.
    + intros [|k] t' Hk; simpl in *.
      * injection Hk as <-. rewrite Nat.add_0_r, part_filename_expected.
        eexists; reflexivity.
      * destruct (Hnth _ _ Hk) as (blob & Hb). exists blob.
        rewrite Hb. now rewrite Nat.add_succ_r.
Qed.

(** C9 (amended): the form holds one field named [torrents] per unit, in the
    order of the list, each a file part whose filename is the unit's own
    filename when that is a non-empty string and [torrent_<index>.torrent]
    otherwise, the index being the zero-based position of the unit; two
    units without filenames get [torrent_0.torrent] and [torrent_1.torrent]. *)
Theorem torrents_parts_filenames (params : TorrentAddParameters.t)
    (ts : OneOrMany TorrentFile.t) (fd : FormData) :
  TorrentAddParameters.torrents params = Some ts ->
  addTorrent_formData params = Return fd ->
  length (getAll "torrents" fd) = length (as_array ts)
  /\ (forall index torrent,
         nth_error (as_array ts) index = Some torrent ->
         exists blob,
           nth_error (getAll "torrents" fd) index
           = Some (File blob (expected_filename torrent index)))
  /\ (forall t0 t1,
         ts = Many [t0; t1] ->
         TorrentFile.filename t0 = None ->
         TorrentFile.filename t1 = None ->
         filenames (getAll "torrents" fd)
         = ["torrent_0.torrent"; "torrent_1.torrent"]).
Proof.
  intros Ht H.
  destruct (addTorrent_formData_shape _ _ H) as (fd1 & -> & _ & Hloop).
  rewrite Ht in Hloop.
  destruct (forEach_torrent_files _ _ _ _ Hloop) as (files & Hg & Hlen & Hnth).
  assert (Hall : getAll "torrents" (scalar_fields params fd1) = files).
  { scalar_field_chain. rewrite Hg.
    rewrite getAll_urls_field by reflexivity. reflexivity. }
  rewrite Hall. repeat split.
  - exact Hlen.
  - intros index torrent Hi. exact (Hnth _ _ Hi).
  - intros t0 t1 -> H0 H1.
    destruct (Hnth 0 t0 eq_refl) as (b0 & E0).
    destruct (Hnth 1 t1 eq_refl) as (b1 & E1).
    unfold expected_filename in E0, E1. rewrite H0 in E0. rewrite H1 in E1.
    destruct files as [|f0 [|f1 [|f2 files]]]; try discriminate.
    simpl in E0, E1. injection E0 as ->. injection E1 as ->. reflexivity.
Qed.

Lemma torrents_parts_filenames_witness :
  exists fd,
    addTorrent_formData
      (Sample.request_with (Many [Sample.text_unit; Sample.shared_unit]))
    = Return fd
    /\ filenames (getAll "torrents" fd)
       = ["torrent_0.torrent"; "torrent_1.torrent"].
Proof.
  eexists. split; [reflexivity|].
  apply (proj2 (proj2 (torrents_parts_filenames
                         (Sample.request_with
                            (Many [Sample.text_unit; Sample.shared_unit]))
                         _ _ eq_refl eq_refl))
           Sample.text_unit Sample.shared_unit);
    reflexivity.
Defined.

(** C9 as stated fails: a unit given the empty string as its filename gets
    the generated name, not the one supplied. *)
Lemma empty_filename_is_replaced :
  TorrentFile.filename Sample.empty_name_unit = Some EmptyString
  /\ match addTorrent_formData
             (Sample.request_with (Many [Sample.empty_name_unit])) with
     | Return fd => filenames (getAll "torrents" fd) = ["torrent_0.torrent"]
     | Throw _ => False
     end.
Proof. split; reflexivity. Qed.


(* ================================================================== *)
(** ** JSON.parse never runs out of fuel *)
(* ================================================================== *)

Module JsonFuel.
Import Json.

Lemma strip_prefix_length (p s r : string) :
  strip_prefix p s = Some r ->
  String.length s = String.length p + String.length r.
Proof.
  revert s. induction p as [|a p IH]; intros [|b s]; simpl;
    try discriminate.
  - intros H; injection H as <-; reflexivity.
  - intros H; injection H as <-; reflexivity.
  - destruct (Ascii.eqb a b); [|discriminate].
    intros H. now rewrite (IH _ H).
Qed.

Lemma skip_ws_length (s : string) :
  String.length (skip_ws s) <= String.length s.
Proof.
  induction s as [|c r IH]; simpl; [lia|].
  destruct (is_ws c); simpl; lia.
Qed.

Lemma digits_length (s d r : string) :
  digits s = (d, r) ->
  String.length s = String.length d + String.length r.
Proof.
  revert d r. induction s as [|c s IH]; intros d r; simpl.
  - intros H; injection H as <- <-; reflexivity.
  - destruct (is_digit c).
    + destruct (digits s) as [d' r'] eqn:E.
      intros H; injection H as <- <-. simpl. now rewrite (IH _ _ eq_refl).
    + intros H; injection H as <- <-. reflexivity.
Qed.

Lemma digits1_length (s d r : string) :
  digits1 s = Some (d, r) -> String.length r < String.length s.
Proof.
  unfold digits1. destruct (digits s) as [d' r'] eqn:E.
  apply digits_length in E. destruct d'; [discriminate|].
  intros H; injection H as <- <-. simpl in E. lia.
Qed.

Lemma int_part_length (s i r : string) :
  int_part s = Some (i, r) -> String.length r < String.length s.
Proof.
  unfold int_part. destruct (strip_prefix "0" s) eqn:E.
  - apply strip_prefix_length in E. simpl in E.
    intros H; injection H as <- <-. lia.
  - apply digits1_length.
Qed.

Lemma frac_part_length (s f r : string) :
  frac_part s = Some (f, r) -> String.length r <= String.length s.
Proof.
  unfold frac_part. destruct (strip_prefix "." s) eqn:E.
  - apply strip_prefix_length in E. simpl in E.
    destruct (digits1 s0) as [[d rest]|] eqn:D; [|discriminate].
    apply digits1_length in D. intros H; injection H as <- <-. lia.
  - intros H; injection H as <- <-. lia.
Qed.

Lemma exp_digits_length (m s e r : string) :
  exp_digits m s = Some (e, r) -> String.length r < String.length s.
Proof.
  unfold exp_digits. destruct (digits1 s) as [[d rest]|] eqn:D;
    [|discriminate].
  apply digits1_length in D. intros H; injection H as <- <-. lia.
Qed.

Lemma exp_sign_length (m s e r : string) :
  exp_sign m s = Some (e, r) -> String.length r < String.length s.
Proof.
  unfold exp_sign.
  destruct (strip_prefix "+" s) eqn:P;
    [|destruct (strip_prefix "-" s) eqn:N];
    try (apply strip_prefix_length in P; simpl in P);
    try (apply strip_prefix_length in N; simpl in N);
    intros H; apply exp_digits_length in H; lia.
Qed.

Lemma exp_part_length (s e r : string) :
  exp_part s = Some (e, r) -> String.length r <= String.length s.
Proof.
  unfold exp_part.
  destruct (strip_prefix "e" s) eqn:P;
    [|destruct (strip_prefix "E" s) eqn:N];
    try (apply strip_prefix_length in P; simpl in P);
    try (apply strip_prefix_length in N; simpl in N).
  - intros H; apply exp_sign_length in H; lia.
  - intros H; apply exp_sign_length in H; lia.
  - intros H; injection H as <- <-; lia.
Qed.

Lemma unsigned_number_length (s n r : string) :
  unsigned_number s = Some (n, r) -> String.length r < String.length s.
Proof.
  unfold unsigned_number.
  destruct (int_part s) as [[i r1]|] eqn:I; [|discriminate].
  destruct (frac_part r1) as [[f r2]|] eqn:F; [|discriminate].
  destruct (exp_part r2) as [[e r3]|] eqn:X; [|discriminate].
  apply int_part_length in I. apply frac_part_length in F.
  apply exp_part_length in X. intros H; injection H as <- <-. lia.
Qed.

Lemma number_length (s n r : string) :
  number s = Some (n, r) -> String.length r < String.length s.
Proof.
  unfold number. destruct (strip_prefix "-" s) eqn:P.
  - apply strip_prefix_length in P. simpl in P.
    destruct (unsigned_number s0) as [[m rest]|] eqn:U; [|discriminate].
    apply unsigned_number_length in U. intros H; injection H as <- <-. lia.
  - apply unsigned_number_length.
Qed.

Lemma string_body_length (n : nat) :
  forall s str r,
    String.length s <= n ->
    string_body s = Some (str, r) -> String.length r < String.length s.
Proof.
  induction n as [|n IH]; intros [|c s] str r Hn; simpl in *;
    try discriminate; try lia.
  destruct (Ascii.eqb c dquote).
  { intros H; injection H as <- <-. lia. }
  destruct (Ascii.eqb c "\"%char).
  - destruct s as [|e s']; [discriminate|].
    destruct (Ascii.eqb e "u"%char).
    + destruct s' as [|h1 [|h2 [|h3 [|h4 s'']]]]; try discriminate.
      destruct (hex4 h1 h2 h3 h4); [|discriminate].
      destruct (string_body s'') as [[str' rest]|] eqn:B; [|discriminate].
      apply IH in B; [|simpl in Hn; lia].
      intros H; injection H as <- <-. simpl. lia.
    + destruct (escape e); [|discriminate].
      destruct (string_body s') as [[str' rest]|] eqn:B; [|discriminate].
      apply IH in B; [|simpl in Hn; lia].
      intros H; injection H as <- <-. simpl. lia.
  - destruct (nat_of_ascii c <? 32)%nat; [discriminate|].
    destruct (string_body s) as [[str' rest]|] eqn:B; [|discriminate].
    apply IH in B; [|lia].
    intros H; injection H as <- <-. lia.
Qed.

Lemma consumes_pmap {A B} (f : A -> B) (p : Parsed A) (s : string) :
  consumes p s -> consumes (pmap f p) s.
Proof. destruct p; exact (fun H => H). Qed.

Lemma fueled_pmap {A B} (f : A -> B) (p : Parsed A) :
  fueled p -> fueled (pmap f p).
Proof. unfold fueled. destruct p; simpl; congruence. Qed.

Lemma consumes_weaken {A} (p : Parsed A) (s s' : string) :
  String.length s <= String.length s' -> consumes p s -> consumes p s'.
Proof. destruct p; simpl; lia. Qed.

Lemma scalar_consumes (s : string) : consumes (scalar s) s.
Proof.
  unfold scalar.
  destruct (strip_prefix quote s) eqn:Q.
  { apply strip_prefix_length in Q. simpl in Q.
    destruct (string_body s0) as [[str rest]|] eqn:B; simpl; [|exact I].
    apply (string_body_length _ _ _ _ (le_n _)) in B. lia. }
  destruct (strip_prefix "true" s) eqn:T.
  { apply strip_prefix_length in T. simpl in *. lia. }
  destruct (strip_prefix "false" s) eqn:F.
  { apply strip_prefix_length in F. simpl in *. lia. }
  destruct (strip_prefix "null" s) eqn:N.
  { apply strip_prefix_length in N. simpl in *. lia. }
  destruct (number s) as [[n rest]|] eqn:E; simpl; [|exact I].
  now apply number_length in E.
Qed.

Lemma scalar_fueled (s : string) : fueled (scalar s).
Proof.
  unfold scalar, fueled.
  destruct (strip_prefix quote s);
    [destruct (string_body s0) as [[]|]; discriminate|].
  destruct (strip_prefix "true" s); [discriminate|].
  destruct (strip_prefix "false" s); [discriminate|].
  destruct (strip_prefix "null" s); [discriminate|].
  destruct (number s) as [[]|]; discriminate.
Qed.

Lemma value_S (f : nat) (s : string) :
  value (S f) s =
  match strip_prefix "{" (skip_ws s) with
  | Some r =>
      match strip_prefix "}" (skip_ws r) with
      | Some r' => Good (JObject []) r'
      | None => pmap JObject (members f (skip_ws r))
      end
  | None =>
      match strip_prefix "[" (skip_ws s) with
      | Some r =>
          match strip_prefix "]" (skip_ws r) with
          | Some r' => Good (JArray []) r'
          | None => pmap JArray (elements f (skip_ws r))
          end
      | None => scalar (skip_ws s)
      end
  end.
Proof. reflexivity. Qed.

Lemma elements_S (f : nat) (s : string) :
  elements (S f) s =
  match value f s with
  | Good v r =>
      match strip_prefix "," (skip_ws r) with
      | Some r' => pmap (cons v) (elements f r')
      | None =>
          match strip_prefix "]" (skip_ws r) with
          | Some r' => Good [v] r'
          | None => Malformed
          end
      end
  | Malformed => Malformed
  | OutOfFuel => OutOfFuel
  end.
Proof. reflexivity. Qed.

Lemma members_S (f : nat) (s : string) :
  members (S f) s =
  match strip_prefix quote (skip_ws s) with
  | None => Malformed
  | Some r =>
      match string_body r with
      | None => Malformed
      | Some (k, r1) =>
          match strip_prefix ":" (skip_ws r1) with
          | None => Malformed
          | Some r2 =>
              match value f r2 with
              | Good v r3 =>
                  match strip_prefix "," (skip_ws r3) with
                  | Some r4 => pmap (cons (k, v)) (members f r4)
                  | None =>
                      match strip_prefix "}" (skip_ws r3) with
                      | Some r4 => Good [(k, v)] r4
                      | None => Malformed
                      end
                  end
              | Malformed => Malformed
              | OutOfFuel => OutOfFuel
              end
          end
      end
  end.
Proof. reflexivity. Qed.

(** Records what a successful prefix test or whitespace skip says about
    lengths. *)
Ltac measure :=
  repeat match goal with
    | H : strip_prefix _ _ = Some _ |- _ =>
        apply strip_prefix_length in H; simpl in H
    | H : string_body _ = Some _ |- _ =>
        apply (string_body_length _ _ _ _ (le_n _)) in H
    end;
  repeat match goal with
    | |- context [skip_ws ?s] =>
        lazymatch goal with
        | _ : String.length (skip_ws s) <= String.length s |- _ => fail
        | _ => pose proof (skip_ws_length s)
        end
    | _ : context [skip_ws ?s] |- _ =>
        lazymatch goal with
        | _ : String.length (skip_ws s) <= String.length s |- _ => fail
        | _ => pose proof (skip_ws_length s)
        end
    end.

Lemma parsers_consume (f : nat) :
  (forall s, consumes (value f s) s)
  /\ (forall s, consumes (elements f s) s)
  /\ (forall s, consumes (members f s) s).
Proof.
  induction f as [|f (IHv & IHe & IHm)]; [repeat split; intro; exact I|].
  repeat split; intros s.
  - rewrite value_S.
    destruct (strip_prefix "{" (skip_ws s)) as [r|] eqn:O.
    { destruct (strip_prefix "}" (skip_ws r)) as [r'|] eqn:C.
      - measure. simpl. lia.
      - apply consumes_pmap. measure.
        eapply consumes_weaken; [|apply IHm]. lia. }
    destruct (strip_prefix "[" (skip_ws s)) as [r|] eqn:A.
    { destruct (strip_prefix "]" (skip_ws r)) as [r'|] eqn:C.
      - measure. simpl. lia.
      - apply consumes_pmap. measure.
        eapply consumes_weaken; [|apply IHe]. lia. }
    eapply consumes_weaken; [apply skip_ws_length | apply scalar_consumes].
  - rewrite elements_S. specialize (IHv s).
    destruct (value f s) as [| |v r]; try exact I. simpl in IHv.
    destruct (strip_prefix "," (skip_ws r)) as [r'|] eqn:C.
    { apply consumes_pmap. measure.
      eapply consumes_weaken; [|apply IHe]. lia. }
    destruct (strip_prefix "]" (skip_ws r)) as [r'|] eqn:B; [|exact I].
    measure. simpl. lia.
  - rewrite members_S.
    destruct (strip_prefix quote (skip_ws s)) as [r|] eqn:Q; [|exact I].
    destruct (string_body r) as [[k r1]|] eqn:B; [|exact I].
    destruct (strip_prefix ":" (skip_ws r1)) as [r2|] eqn:C; [|exact I].
    pose proof (IHv r2) as Hv.
    destruct (value f r2) as [| |v r3]; try exact I. simpl in Hv.
    destruct (strip_prefix "," (skip_ws r3)) as [r4|] eqn:M.
    { apply consumes_pmap. measure.
      eapply consumes_weaken; [|apply IHm]. lia. }
    destruct (strip_prefix "}" (skip_ws r3)) as [r4|] eqn:E; [|exact I].
    measure. simpl. lia.
Qed.

Lemma parsers_fueled (f : nat) :
  (forall s, 2 * String.length s < f -> fueled (value f s))
  /\ (forall s, 2 * String.length s + 1 < f -> fueled (elements f s))
  /\ (forall s, 2 * String.length s + 1 < f -> fueled (members f s)).
Proof.
  induction f as [|f (IHv & IHe & IHm)]; [repeat split; intros; lia|].
  repeat split; intros s Hf.
  - rewrite value_S.
    destruct (strip_prefix "{" (skip_ws s)) as [r|] eqn:O.
    { destruct (strip_prefix "}" (skip_ws r)) as [r'|] eqn:C;
        [discriminate|].
      apply fueled_pmap, IHm. measure. lia. }
    destruct (strip_prefix "[" (skip_ws s)) as [r|] eqn:A.
    { destruct (strip_prefix "]" (skip_ws r)) as [r'|] eqn:C;
        [discriminate|].
      apply fueled_pmap, IHe. measure. lia. }
    apply scalar_fueled.
  - rewrite elements_S.
    pose proof (IHv s ltac:(lia)) as Hv.
    pose proof (proj1 (parsers_consume f) s) as Hc.
    destruct (value f s) as [| |v r]; [now elim Hv | discriminate |].
    simpl in Hc.
    destruct (strip_prefix "," (skip_ws r)) as [r'|] eqn:C.
    { apply fueled_pmap, IHe. measure. lia. }
    destruct (strip_prefix "]" (skip_ws r)); discriminate.
  - rewrite members_S.
    destruct (strip_prefix quote (skip_ws s)) as [r|] eqn:Q; [|discriminate].
    destruct (string_body r) as [[k r1]|] eqn:B; [|discriminate].
    destruct (strip_prefix ":" (skip_ws r1)) as [r2|] eqn:C; [|discriminate].
    measure.
    pose proof (IHv r2 ltac:(lia)) as Hv.
    pose proof (proj1 (parsers_consume f) r2) as Hc.
    destruct (value f r2) as [| |v r3]; [now elim Hv | discriminate |].
    simpl in Hc.
    destruct (strip_prefix "," (skip_ws r3)) as [r4|] eqn:M.
    { apply fueled_pmap, IHm. measure. lia. }
    destruct (strip_prefix "}" (skip_ws r3)); discriminate.
Qed.

(** The fuel [parse] provides is enough: a value is malformed or parsed,
    the bound is never what stops the parser. *)
Lemma value_fuel (txt : string) : value (fuel_for txt) txt <> OutOfFuel.
Proof.
  apply (proj1 (parsers_fueled (fuel_for txt))). unfold fuel_for. lia.
Qed.

End JsonFuel.

(* ================================================================== *)
(** ** The response decoder *)
(* ================================================================== *)

(** [JSON.parse] throws nothing but [SyntaxError]. *)
Lemma parse_throws (txt : string) (e : Thrown) :
  Json.parse txt = Throw e -> e = Json.syntax_error txt.
Proof.
  unfold Json.parse.
  destruct (Json.value (Json.fuel_for txt) txt) as [| |v rest].
  - intros H; injection H as <-; reflexivity.
  - intros H; injection H as <-; reflexivity.
  - destruct (Json.skip_ws rest); [discriminate|].
    intros H; injection H as <-; reflexivity.
Qed.

(** The examples of the specification. *)
Example decode_Ok : parseResponse "Ok." = Return (VJson (Json.JBool true)).
Proof. reflexivity. Qed.

Example decode_object :
  parseResponse Sample.object_text
  = Return (VJson (Json.JObject [("a", Json.JNumber "1")])).
Proof. reflexivity. Qed.

Example decode_not_json :
  parseResponse "not json" = Throw (Json.syntax_error "not json").
Proof. reflexivity. Qed.

(** C6 (amended): the decoder returns [true] for the text [Ok.]; for any
    other text it returns what JSON parsing produces, so it also returns
    [true] for a text that is the JSON literal [true], and for no other
    text; a text that is neither [Ok.] nor JSON makes it throw the parser's
    [SyntaxError] unchanged. *)
Theorem parseResponse_decodes (txt : string) :
  (txt = "Ok." -> parseResponse txt = Return (VJson (Json.JBool true)))
  /\ (txt <> "Ok." ->
      parseResponse txt =
      match Json.parse txt with
      | Return j => Return (VJson j)
      | Throw e => Throw e
      end)
  /\ (parseResponse txt = Return (VJson (Json.JBool true))
      <-> txt = "Ok." \/ Json.parse txt = Return (Json.JBool true))
  /\ (forall e,
         txt <> "Ok." -> Json.parse txt = Throw e ->
         parseResponse txt = Throw e /\ name e = SyntaxErrorN).
Proof.
  unfold parseResponse. repeat split.
  - intros ->. reflexivity.
  - intros H. apply String.eqb_neq in H. now rewrite H.
  - destruct (String.eqb txt "Ok.") eqn:E.
    + apply String.eqb_eq in E. now left.
    + destruct (Json.parse txt) as [j|e]; [|discriminate].
      intros H; injection H as ->. now right.
  - intros [-> | H]; [reflexivity|].
    rewrite H. destruct (String.eqb txt "Ok."); reflexivity.
  - apply String.eqb_neq in H. rewrite H, H0. reflexivity.
  - apply parse_throws in H0. subst e. reflexivity.
Qed.

Lemma parseResponse_decodes_witness :
  parseResponse "Ok." = Return (VJson (Json.JBool true))
  /\ parseResponse Sample.object_text
     = match Json.parse Sample.object_text with
       | Return j => Return (VJson j)
       | Throw e => Throw e
       end
  /\ parseResponse "not json" = Throw (Json.syntax_error "not json").
Proof.
  split; [|split].
  - apply (proj1 (parseResponse_decodes "Ok.")). reflexivity.
  - apply (proj1 (proj2 (parseResponse_decodes Sample.object_text))).
    discriminate.
  - apply (proj2 (proj2 (proj2 (parseResponse_decodes "not json")))).
    + discriminate.
    + reflexivity.
Defined.

(** C6 as stated fails: the text [true] is not [Ok.] and decodes to [true]. *)
Lemma true_text_decodes_to_true :
  "true" <> "Ok."
  /\ parseResponse "true" = Return (VJson (Json.JBool true)).
Proof. split; [discriminate | reflexivity]. Qed.

(* ================================================================== *)
(** ** getTorrentInfo: the query *)
(* ================================================================== *)

Lemma params_getAll_append (name n v : string) (q : URLSearchParams) :
  params_getAll name (params_append q n v)
  = (params_getAll name q ++ (if String.eqb n name then [v] else []))%list.
Proof.
  unfold params_getAll, params_append. rewrite filter_app, map_app. simpl.
  destruct (String.eqb n name); reflexivity.
Qed.

Lemma params_getAll_query_if (name n v : string) (cond : bool)
    (q : URLSearchParams) :
  params_getAll name (query_if cond n v q)
  = (params_getAll name q
     ++ (if cond && String.eqb n name then [v] else []))%list.
Proof.
  unfold query_if. destruct cond; simpl.
  - apply params_getAll_append.
  - now rewrite app_nil_r.
Qed.


(** *** The query string carries the parameters, and nothing else *)

Lemma append_String_assoc (a : string) (c : ascii) (b d : string) :
  (a ++ String c b) ++ d = a ++ String c (b ++ d).
Proof. induction a as [|x a IH]; simpl; [reflexivity | now rewrite IH]. Qed.

Lemma mentions_append (c : ascii) (a b : string) :
  mentions c (a ++ b) = mentions c a || mentions c b.
Proof.
  induction a as [|x a IH]; simpl; [reflexivity|].
  now rewrite IH, orb_assoc.
Qed.

Lemma split_on_not_nil (sep : ascii) (s : string) : split_on sep s <> [].
Proof.
  induction s as [|c r IH]; simpl; [discriminate|].
  destruct (Ascii.eqb c sep); [discriminate|].
  destruct (split_on sep r); discriminate.
Qed.

Lemma split_on_segment (sep : ascii) (a b : string) :
  mentions sep a = false ->
  split_on sep (a ++ String sep b) = a :: split_on sep b.
Proof.
  induction a as [|x a IH]; simpl.
  - intros _. now rewrite Ascii.eqb_refl.
  - intros H. apply orb_false_iff in H as [Hx Ha].
    rewrite Hx, (IH Ha). reflexivity.
Qed.

Lemma split_on_last (sep : ascii) (a : string) :
  mentions sep a = false -> split_on sep a = [a].
Proof.
  induction a as [|x a IH]; simpl; [reflexivity|].
  intros H. apply orb_false_iff in H as [Hx Ha].
  rewrite Hx, (IH Ha). reflexivity.
Qed.

Lemma cut_pair_at (k v : string) :
  mentions "="%char k = false -> cut_pair (k ++ String "="%char v) = (k, v).
Proof.
  induction k as [|x k IH]; simpl; [reflexivity|].
  intros H. apply orb_false_iff in H as [Hx Hk].
  rewrite Hx, (IH Hk). reflexivity.
Qed.

(** One character, encoded and decoded, is itself; what the encoder emits
    for it holds neither [&] nor [=]. *)
Lemma form_encode_char (c : ascii) (r : string) :
  form_decode (form_encode (String c r))
  = String c (form_decode (form_encode r))
  /\ mentions "&"%char (form_encode (String c r))
     = mentions "&"%char (form_encode r)
  /\ mentions "="%char (form_encode (String c r))
     = mentions "="%char (form_encode r).
Proof.
  destruct c as [[] [] [] [] [] [] [] []]; repeat split.
Qed.

Lemma form_decode_encode (s : string) : form_decode (form_encode s) = s.
Proof.
  induction s as [|c r IH]; [reflexivity|].
  rewrite (proj1 (form_encode_char c r)), IH. reflexivity.
Qed.

Lemma form_encode_clean (s : string) :
  mentions "&"%char (form_encode s) = false
  /\ mentions "="%char (form_encode s) = false.
Proof.
  induction s as [|c r [IHa IHe]]; [split; reflexivity|].
  destruct (form_encode_char c r) as (_ & -> & ->). now split.
Qed.

Lemma params_parse_segment (k v : string) :
  (let (k', v') := cut_pair (form_encode k ++ String "="%char (form_encode v))
   in (form_decode k', form_decode v')) = (k, v).
Proof.
  rewrite cut_pair_at by apply form_encode_clean.
  now rewrite !form_decode_encode.
Qed.

Lemma segment_clean (k v : string) :
  mentions "&"%char (form_encode k ++ String "="%char (form_encode v)) = false.
Proof.
  rewrite mentions_append. simpl.
  now rewrite (proj1 (form_encode_clean k)), (proj1 (form_encode_clean v)).
Qed.

Lemma segment_nonempty (k v : string) :
  nonempty (form_encode k ++ String "="%char (form_encode v)) = true.
Proof. destruct (form_encode k); reflexivity. Qed.

(** Parsing the serialized query gives the parameters back. *)
Lemma params_parse_toString (q : URLSearchParams) :
  params_parse (params_toString q) = q.
Proof.
  induction q as [|[k v] rest IH]; [reflexivity|].
  destruct rest as [|p rest].
  - unfold params_parse. simpl params_toString.
    rewrite split_on_last by apply segment_clean. simpl filter.
    rewrite segment_nonempty. simpl map.
    now rewrite params_parse_segment.
  - unfold params_parse in *.
    change (params_toString ((k, v) :: p :: rest))
      with (form_encode k
            ++ String "="%char
                 (form_encode v ++ String "&"%char (params_toString (p :: rest)))).
    rewrite <- append_String_assoc.
    rewrite split_on_segment by apply segment_clean.
    simpl filter. rewrite segment_nonempty. simpl map.
    rewrite params_parse_segment. f_equal. exact IH.
Qed.

Ltac query_chain :=
  unfold getTorrentInfo_query;
  cbn [TorrentInfoParameters.filter TorrentInfoParameters.category
       TorrentInfoParameters.sort TorrentInfoParameters.reverse
       TorrentInfoParameters.limit TorrentInfoParameters.offset
       TorrentInfoParameters.hashes];
  repeat match goal with
    | |- context [match ?o with Some _ => _ | None => _ end] =>
        is_var o; destruct o
    end;
  repeat first [ rewrite params_getAll_query_if
               | rewrite params_getAll_append ];
  simpl; rewrite ?andb_false_r; simpl; rewrite ?app_nil_r.

(** The call that [getTorrentInfo] dispatches for the sample query. *)
Example getTorrentInfo_sample_call :
  fst (getTorrentInfo Sample.accepting Sample.downloading_a_b Sample.holding)
  = Return (VJson (Json.JBool true))
  /\ calls (snd (getTorrentInfo Sample.accepting Sample.downloading_a_b
                   Sample.holding))
     = [ {| call_url :=
              "http://localhost:8080/api/v2/torrents/info?filter=downloading&hashes=a%7Cb";
            call_method := "GET";
            call_headers := [("Cookie", "SID=old")];
            call_body := NoBody |} ].
Proof. split; reflexivity. Qed.

(** The world [getTorrentInfo] leaves once the lazy login is behind it:
    one more call, whose URL ends with the serialized query. *)
Lemma getTorrentInfo_world (server : Server)
    (params : TorrentInfoParameters.t) (w w1 : World) :
  lazy_login server w = (Return tt, w1) ->
  snd (getTorrentInfo server params w)
  = logged w1
      {| call_url :=
           baseUrl (this w1) ++ "/api/v2/torrents/info?"
           ++ params_toString (getTorrentInfo_query params);
         call_method := "GET";
         call_headers := cookie_headers (this w1);
         call_body := NoBody |}.
Proof.
  intros Hl. unfold getTorrentInfo.
  rewrite (request_dispatch _ _ _ _ _ _ Hl). unfold dispatch_result.
  set (call := api_call (this w1) "GET" _ NoBody).
  assert (Hcall : call
                  = {| call_url :=
                         baseUrl (this w1) ++ "/api/v2/torrents/info?"
                         ++ params_toString (getTorrentInfo_query params);
                       call_method := "GET";
                       call_headers := cookie_headers (this w1);
                       call_body := NoBody |}) by reflexivity.
  rewrite <- Hcall.
  destruct (server (calls w1) call) as [e|r]; [reflexivity|].
  destruct (response_text r) as [txt|]; [|reflexivity].
  destruct (parseResponse txt); reflexivity.
Qed.

(** C8: [getTorrentInfo] called with [{filter: "downloading",
    hashes: ["a","b"]}] issues a GET whose URL carries exactly the two query
    parameters [filter=downloading] and [hashes=a|b].  In general the call
    it issues goes to [<baseUrl>/api/v2/torrents/info?<query>], and the
    parameters read back from that query are exactly those built: a list of
    hashes gives one [hashes] parameter, its items joined with [|], and an
    absent field gives no parameter. *)
Theorem getTorrentInfo_query_encoding :
  getTorrentInfo_query Sample.downloading_a_b
  = [("filter", "downloading"); ("hashes", "a|b")]
  /\ params_parse (params_toString (getTorrentInfo_query Sample.downloading_a_b))
     = [("filter", "downloading"); ("hashes", "a|b")]
  /\ (forall params hs,
         TorrentInfoParameters.hashes params = Some (Many hs) ->
         params_getAll "hashes" (getTorrentInfo_query params) = [join "|" hs])
  /\ (forall params,
         (TorrentInfoParameters.filter params = None ->
          params_getAll "filter" (getTorrentInfo_query params) = [])
         /\ (TorrentInfoParameters.category params = None ->
             params_getAll "category" (getTorrentInfo_query params) = [])
         /\ (TorrentInfoParameters.sort params = None ->
             params_getAll "sort" (getTorrentInfo_query params) = [])
         /\ (TorrentInfoParameters.reverse params = None ->
             params_getAll "reverse" (getTorrentInfo_query params) = [])
         /\ (TorrentInfoParameters.limit params = None ->
             params_getAll "limit" (getTorrentInfo_query params) = [])
         /\ (TorrentInfoParameters.offset params = None ->
             params_getAll "offset" (getTorrentInfo_query params) = [])
         /\ (TorrentInfoParameters.hashes params = None ->
             params_getAll "hashes" (getTorrentInfo_query params) = []))
  /\ (forall params,
         params_parse (params_toString (getTorrentInfo_query params))
         = getTorrentInfo_query params)
  /\ (forall server params w w1,
         lazy_login server w = (Return tt, w1) ->
         exists query,
           snd (getTorrentInfo server params w)
           = logged w1
               {| call_url :=
                    baseUrl (this w1) ++ "/api/v2/torrents/info?" ++ query;
                  call_method := "GET";
                  call_headers := cookie_headers (this w1);
                  call_body := NoBody |}
           /\ params_parse query = getTorrentInfo_query params)
  /\ (forall server,
         exists query,
           calls (snd (getTorrentInfo server Sample.downloading_a_b
                         Sample.holding))
           = [ {| call_url :=
                    "http://localhost:8080/api/v2/torrents/info?" ++ query;
                  call_method := "GET";
                  call_headers := [("Cookie", "SID=old")];
                  call_body := NoBody |} ]
           /\ params_parse query
              = [("filter", "downloading"); ("hashes", "a|b")]).
Proof.
  split; [reflexivity|]. split; [reflexivity|].
  split; [|split; [|split; [|split]]].
  - intros [f c s r l o h] hs. simpl. intros ->. query_chain; reflexivity.
  - intros [f c s r l o h]. simpl.
    repeat split; intros ->; query_chain; reflexivity.
  - intros params. apply params_parse_toString.
  - intros server params w w1 Hl.
    exists (params_toString (getTorrentInfo_query params)).
    split; [now apply getTorrentInfo_world | apply params_parse_toString].
  - intros server.
    exists (params_toString (getTorrentInfo_query Sample.downloading_a_b)).
    split; [|reflexivity].
    rewrite (getTorrentInfo_world server Sample.downloading_a_b
               Sample.holding Sample.holding eq_refl).
    reflexivity.
Qed.

Lemma getTorrentInfo_query_encoding_witness :
  params_getAll "hashes" (getTorrentInfo_query Sample.downloading_a_b)
  = ["a|b"]
  /\ params_getAll "category" (getTorrentInfo_query Sample.downloading_a_b)
     = []
  /\ exists query,
       snd (getTorrentInfo Sample.unreachable Sample.downloading_a_b
              Sample.holding)
       = logged Sample.holding
           {| call_url :=
                baseUrl (this Sample.holding) ++ "/api/v2/torrents/info?"
                ++ query;
              call_method := "GET";
              call_headers := cookie_headers (this Sample.holding);
              call_body := NoBody |}
       /\ params_parse query = [("filter", "downloading"); ("hashes", "a|b")].
Proof.
  destruct getTorrentInfo_query_encoding
    as (_ & _ & Hh & Habsent & _ & Hcall & _).
  split; [|split].
  - apply (Hh Sample.downloading_a_b ["a"; "b"]). reflexivity.
  - apply (proj1 (proj2 (Habsent Sample.downloading_a_b))). reflexivity.
  - apply (Hcall Sample.unreachable Sample.downloading_a_b
             Sample.holding Sample.holding).
    reflexivity.
Defined.

(* ================================================================== *)
(** ** Further properties: construction and token extraction *)
(* ================================================================== *)

Lemma strip_trailing_slash_slash (s : string) :
  strip_trailing_slash (s ++ "/") = s.
Proof.
  induction s as [|c s IH]; [reflexivity|].
  simpl. destruct (s ++ "/") eqn:E.
  - destruct s; discriminate.
  - now rewrite IH.
Qed.

Lemma strip_trailing_slash_other (s : string) (c : ascii) :
  c <> "/"%char ->
  strip_trailing_slash (s ++ String c EmptyString) = s ++ String c EmptyString.
Proof.
  intros H. induction s as [|x s IH]; simpl.
  - apply Ascii.eqb_neq in H. now rewrite H.
  - destruct (s ++ String c EmptyString) eqn:E.
    + destruct s; discriminate.
    + now rewrite IH.
Qed.

(** X1: the constructor removes one trailing slash from the base URL and
    nothing else: a base URL that ends with a slash loses exactly that
    slash, any other base URL is kept as it is; the credentials are taken
    over and no token is held. *)
Theorem constructor_strips_one_slash :
  (forall s u p,
      baseUrl (constructor (mkConfig (s ++ "/") u p)) = s)
  /\ (forall s c u p,
         c <> "/"%char ->
         baseUrl (constructor (mkConfig (s ++ String c EmptyString) u p))
         = s ++ String c EmptyString)
  /\ (forall u p, baseUrl (constructor (mkConfig EmptyString u p))
                  = EmptyString)
  /\ (forall b u p,
         username (constructor (mkConfig b u p)) = u
         /\ password (constructor (mkConfig b u p)) = p
         /\ sid (constructor (mkConfig b u p)) = None).
Proof.
  split; [|split; [|split]].
  - intros s u p. apply strip_trailing_slash_slash.
  - intros s c u p H. now apply strip_trailing_slash_other.
  - reflexivity.
  - intros b u p. repeat split.
Qed.

Lemma constructor_strips_one_slash_witness :
  baseUrl (constructor (mkConfig "http://host:8080//" None None))
  = "http://host:8080/"
  /\ baseUrl (constructor (mkConfig "http://host:8080" None None))
     = "http://host:8080".
Proof.
  destruct constructor_strips_one_slash as (Hs & Ho & _). split.
  - apply (Hs "http://host:8080/").
  - apply (Ho "http://host:808" "0"%char). discriminate.
Defined.

Lemma strip_prefix_app (p s r : string) :
  strip_prefix p s = Some r -> s = p ++ r.
Proof.
  revert s. induction p as [|a p IH]; intros [|b s]; simpl;
    try discriminate.
  - intros H; injection H as <-; reflexivity.
  - intros H; injection H as <-; reflexivity.
  - destruct (Ascii.eqb a b) eqn:E; [|discriminate].
    apply Ascii.eqb_eq in E. subst b. intros H. now rewrite (IH _ H).
Qed.

Lemma until_semicolon_split (s : string) :
  mentions ";"%char (until_semicolon s) = false
  /\ exists post,
       s = until_semicolon s ++ post
       /\ (post = EmptyString \/ exists p, post = String ";"%char p).
Proof.
  induction s as [|c s (IHm & post & IHs & IHp)]; simpl.
  - split; [reflexivity|]. exists EmptyString. split; [reflexivity | now left].
  - destruct (Ascii.eqb c ";"%char) eqn:E.
    + apply Ascii.eqb_eq in E. subst c. split; [reflexivity|].
      exists (String ";"%char s). split; [reflexivity|]. right. now exists s.
    + simpl. rewrite E, IHm. split; [reflexivity|].
      exists post. split; [now rewrite <- IHs | exact IHp].
Qed.

Lemma until_semicolon_token (t post : string) :
  mentions ";"%char t = false ->
  until_semicolon t = t
  /\ until_semicolon (t ++ String ";"%char post) = t.
Proof.
  induction t as [|c t IH]; simpl.
  - intros _. split; reflexivity.
  - intros H. apply orb_false_iff in H as [Hc Ht].
    rewrite Hc. destruct (IH Ht) as [-> ->]. split; reflexivity.
Qed.

(** X2: what the pattern /SID=([^;]+)/ captures.  A captured token is not
    empty, holds no semicolon, stands in the header right after an
    occurrence of [SID=] and ends at the next semicolon or at the end of the
    header.  Conversely a header that starts with [SID=] followed by a
    non-empty token without semicolon yields that token, whether the header
    ends there or goes on with a semicolon. *)
Theorem match_SID_captures :
  (forall s v,
      match_SID s = Some v ->
      nonempty v = true
      /\ mentions ";"%char v = false
      /\ exists pre post,
           s = pre ++ "SID=" ++ v ++ post
           /\ (post = EmptyString \/ exists p, post = String ";"%char p))
  /\ (forall t post,
         nonempty t = true ->
         mentions ";"%char t = false ->
         match_SID ("SID=" ++ t) = Some t
         /\ match_SID ("SID=" ++ t ++ String ";"%char post) = Some t).
Proof.
  split.
  - intros s. induction s as [|c r IH]; intros v; [discriminate|].
    rewrite match_SID_step.
    destruct (strip_prefix "SID=" (String c r)) as [after|] eqn:P.
    + destruct (until_semicolon after) as [|x y] eqn:U.
      * intros H. destruct (IH _ H) as (Hn & Hm & pre & post & -> & Hp).
        repeat split; try assumption. exists (String c pre), post.
        split; [reflexivity | exact Hp].
      * intros H; injection H as <-.
        destruct (until_semicolon_split after) as (Hm & post & Hs & Hp).
        rewrite U in Hm, Hs. repeat split; try assumption.
        exists EmptyString, post. split; [|exact Hp].
        apply strip_prefix_app in P. rewrite P, Hs. reflexivity.
    + intros H. destruct (IH _ H) as (Hn & Hm & pre & post & -> & Hp).
      repeat split; try assumption. exists (String c pre), post.
      split; [reflexivity | exact Hp].
  - intros t post Hn Hm.
    destruct (until_semicolon_token t post Hm) as [U1 U2].
    destruct t as [|x y]; [discriminate|].
    split.
    + change (match_SID ("SID=" ++ String x y))
        with (match until_semicolon (String x y) with
              | EmptyString => match_SID ("ID=" ++ String x y)
              | v => Some v
              end).
      now rewrite U1.
    + change (match_SID ("SID=" ++ String x y ++ String ";"%char post))
        with (match until_semicolon (String x y ++ String ";"%char post) with
              | EmptyString =>
                  match_SID ("ID=" ++ String x y ++ String ";"%char post)
              | v => Some v
              end).
      now rewrite U2.
Qed.

Lemma match_SID_captures_witness :
  match_SID "SID=s3cr3t; HttpOnly; path=/" = Some "s3cr3t"
  /\ nonempty "s3cr3t" = true.
Proof.
  destruct match_SID_captures as (Hsound & Hfound). split.
  - apply (proj2 (Hfound "s3cr3t" " HttpOnly; path=/" eq_refl eq_refl)).
  - apply (proj1 (Hsound "lang=en; SID=s3cr3t" "s3cr3t" eq_refl)).
Defined.

(* ================================================================== *)
(** ** Further properties: the session *)
(* ================================================================== *)

Lemma extract_sid_some_not_Fails (v : Value) (t : string) :
  extract_sid v = Return (Some t) -> is_Fails v = false.
Proof.
  destruct v as [|j|h]; try reflexivity.
  destruct j; try reflexivity; discriminate.
Qed.

Lemma login_success (server : Server) (w : World) (r : Response) (t : string) :
  server (calls w) (login_call (this w)) = Resolves r ->
  extract_sid (response_data r) = Return (Some t) ->
  login server w
  = (Return tt, with_sid (logged w (login_call (this w))) (Some t)).
Proof.
  intros H E. rewrite (login_resolved _ _ _ H). unfold login_result.
  now rewrite (extract_sid_some_not_Fails _ _ E), E.
Qed.

Lemma lazy_login_needed (server : Server) (w : World) :
  needs_login (this w) = true -> lazy_login server w = login server w.
Proof.
  intros H. unfold lazy_login, bind, get_this. now rewrite H.
Qed.

Lemma dispatch_result_world (server : Server) (w1 : World) (call : HttpCall) :
  snd (dispatch_result server w1 call) = logged w1 call.
Proof.
  unfold dispatch_result. destruct (server (calls w1) call) as [e|r];
    [reflexivity|].
  destruct (response_text r) as [txt|]; [|reflexivity].
  destruct (parseResponse txt); reflexivity.
Qed.

(** The world [login] leaves, in each of its outcomes. *)
Lemma login_world (server : Server) (w : World) :
  calls (snd (login server w)) = (calls w ++ [login_call (this w)])%list
  /\ same_config (this w) (this (snd (login server w)))
  /\ (token_ok (this w) -> token_ok (this (snd (login server w)))).
Proof.
  destruct (server (calls w) (login_call (this w))) as [e|r] eqn:H.
  - rewrite (login_rejected _ _ _ H). simpl. repeat split. exact (fun T => T).
  - rewrite (login_resolved _ _ _ H). unfold login_result.
    destruct (is_Fails (response_data r)).
    { simpl. repeat split. exact (fun T => T). }
    destruct (extract_sid (response_data r)) as [[t|]|e] eqn:E; simpl.
    + repeat split. intros _. unfold token_ok. simpl.
      apply extract_sid_truthy in E. destruct t; [discriminate|].
      discriminate.
    + repeat split. intros _. unfold token_ok. simpl. discriminate.
    + repeat split. exact (fun T => T).
Qed.

(** X3: when its call resolves, [login] returns normally exactly when a
    token is extracted from the answer, and the client then holds that
    token; the configuration is untouched and one call was made. *)
Theorem login_succeeds_iff_token (server : Server) (w : World) (r : Response) :
  server (calls w) (login_call (this w)) = Resolves r ->
  ((exists w', login server w = (Return tt, w'))
   <-> exists t, extract_sid (response_data r) = Return (Some t))
  /\ (forall t,
         extract_sid (response_data r) = Return (Some t) ->
         exists w',
           login server w = (Return tt, w')
           /\ sid (this w') = Some t
           /\ same_config (this w) (this w')
           /\ calls w' = (calls w ++ [login_call (this w)])%list).
Proof.
  intros H. split; [split|].
  - intros (w' & Hl). rewrite (login_resolved _ _ _ H) in Hl.
    unfold login_result in Hl.
    destruct (is_Fails (response_data r)); [discriminate|].
    destruct (extract_sid (response_data r)) as [[t|]|e]; try discriminate.
    now exists t.
  - intros (t & E). rewrite (login_success _ _ _ _ H E). now eexists.
  - intros t E. rewrite (login_success _ _ _ _ H E).
    eexists. repeat split.
Qed.

Lemma login_succeeds_iff_token_witness :
  exists w',
    login Sample.accepting Sample.fresh = (Return tt, w')
    /\ sid (this w') = Some "s3cr3t"
    /\ same_config (this Sample.fresh) (this w')
    /\ calls w' = [login_call (this Sample.fresh)].
Proof.
  apply (proj2 (login_succeeds_iff_token
                  Sample.accepting Sample.fresh _ eq_refl)).
  reflexivity.
Defined.

(** X4: whatever the server does, [login] issues exactly one call, the POST
    to [auth/login], and that call never carries a Cookie header, not even
    when the client holds a token. *)
Theorem login_issues_one_call (server : Server) (w : World) :
  calls (snd (login server w)) = (calls w ++ [login_call (this w)])%list
  /\ call_url (login_call (this w)) = baseUrl (this w) ++ "/api/v2/auth/login"
  /\ call_method (login_call (this w)) = "POST"
  /\ Headers_get (call_headers (login_call (this w))) "Cookie" = None.
Proof.
  split; [apply login_world|]. repeat split.
Qed.

(** X5: on a client that has both credentials and holds no token, a
    dispatch whose login is answered with a token issues two calls, the
    login and then the API call; the API call carries the header
    [Cookie: SID=<token>] with exactly the token captured, and the client
    holds that token afterwards. *)
Theorem request_logs_in_first
    (server : Server) (method endpoint : string) (data : Body)
    (w : World) (r : Response) (t : string) :
  needs_login (this w) = true ->
  server (calls w) (login_call (this w)) = Resolves r ->
  extract_sid (response_data r) = Return (Some t) ->
  calls (snd (request server method endpoint data w))
  = (calls w
     ++ [login_call (this w);
         call_with (this w) [("Cookie", ("SID=" ++ t)%string)]
           method endpoint data])%list
  /\ sid (this (snd (request server method endpoint data w))) = Some t.
Proof.
  intros Hn H E.
  pose proof (login_success _ _ _ _ H E) as Hl.
  rewrite <- (lazy_login_needed _ _ Hn) in Hl.
  rewrite (request_dispatch _ _ _ _ _ _ Hl), dispatch_result_world.
  unfold api_call, call_with, cookie_headers. simpl.
  rewrite (extract_sid_truthy _ _ E), <- app_assoc. split; reflexivity.
Qed.

Lemma request_logs_in_first_witness :
  calls (snd (request Sample.accepting "GET" "app/version" NoBody Sample.fresh))
  = [login_call (this Sample.fresh);
     call_with (this Sample.fresh) [("Cookie", "SID=s3cr3t")]
       "GET" "app/version" NoBody]
  /\ sid (this (snd (request Sample.accepting "GET" "app/version" NoBody
                       Sample.fresh)))
     = Some "s3cr3t".
Proof.
  eapply (request_logs_in_first Sample.accepting "GET" "app/version" NoBody
            Sample.fresh _ "s3cr3t"); reflexivity.
Defined.

(** X6: on a client that holds a token, a dispatch never logs in: it issues
    a single call, to [<baseUrl>/api/v2/<endpoint>], with the header
    [Cookie: SID=<token>], and leaves the client as it was. *)
Theorem request_sends_held_token
    (server : Server) (method endpoint : string) (data : Body)
    (w : World) (s : string) :
  sid (this w) = Some s ->
  nonempty s = true ->
  snd (request server method endpoint data w)
  = logged w (call_with (this w) [("Cookie", "SID=" ++ s)]
                method endpoint data).
Proof.
  intros Hs Hn.
  assert (Hl : needs_login (this w) = false).
  { unfold needs_login. rewrite Hs. simpl. now rewrite Hn. }
  rewrite (request_dispatch _ _ _ _ _ _ (lazy_login_skipped server w Hl)),
    dispatch_result_world.
  unfold api_call, call_with, cookie_headers. now rewrite Hs, Hn.
Qed.

Lemma request_sends_held_token_witness :
  snd (request Sample.unreachable "POST" "torrents/pause" NoBody Sample.holding)
  = logged Sample.holding
      (call_with (this Sample.holding) [("Cookie", "SID=old")]
         "POST" "torrents/pause" NoBody).
Proof.
  apply (request_sends_held_token Sample.unreachable "POST" "torrents/pause"
           NoBody Sample.holding "old"); reflexivity.
Defined.

(** X7: on a client that holds no token and lacks a credential (the
    username or the password is absent or empty), a dispatch never logs in
    and sends no Cookie header: it issues the single API call without
    headers. *)
Theorem request_without_credentials
    (server : Server) (method endpoint : string) (data : Body) (w : World) :
  truthy_string (sid (this w)) = false ->
  has_credentials (this w) = false ->
  snd (request server method endpoint data w)
  = logged w (call_with (this w) [] method endpoint data).
Proof.
  intros Hs Hc.
  assert (Hl : needs_login (this w) = false).
  { unfold needs_login. unfold has_credentials in Hc.
    now rewrite <- andb_assoc, Hc, andb_false_r. }
  rewrite (request_dispatch _ _ _ _ _ _ (lazy_login_skipped server w Hl)),
    dispatch_result_world.
  unfold api_call, call_with, cookie_headers.
  destruct (sid (this w)) as [s|]; [|reflexivity].
  simpl in Hs. now rewrite Hs.
Qed.

Lemma request_without_credentials_witness :
  snd (request Sample.accepting "GET" "app/version" NoBody More.anonymous)
  = logged More.anonymous
      (call_with (this More.anonymous) [] "GET" "app/version" NoBody).
Proof.
  apply (request_without_credentials Sample.accepting "GET" "app/version"
           NoBody More.anonymous); reflexivity.
Defined.

(** X8: when the lazy login of a dispatch fails, the error of the login is
    what the dispatch throws, and the API call is never issued: the login is
    the only call made. *)
Theorem request_stops_at_failed_login
    (server : Server) (method endpoint : string) (data : Body)
    (w w1 : World) (e : Thrown) :
  needs_login (this w) = true ->
  login server w = (Throw e, w1) ->
  request server method endpoint data w = (Throw e, w1)
  /\ calls w1 = (calls w ++ [login_call (this w)])%list.
Proof.
  intros Hn Hl. split.
  - apply request_login_throws. now rewrite lazy_login_needed.
  - pose proof (proj1 (login_world server w)) as Hc.
    now rewrite Hl in Hc.
Qed.

Lemma request_stops_at_failed_login_witness :
  request (Sample.answering "Fails.") "GET" "app/version" NoBody Sample.fresh
  = (Throw LoginRejected,
     logged Sample.fresh (login_call (this Sample.fresh)))
  /\ calls (logged Sample.fresh (login_call (this Sample.fresh)))
     = [login_call (this Sample.fresh)].
Proof.
  apply (request_stops_at_failed_login (Sample.answering "Fails.")
           "GET" "app/version" NoBody Sample.fresh); reflexivity.
Defined.

(* ================================================================== *)
(** ** Further properties: what every operation keeps *)
(* ================================================================== *)

Lemma extends_refl (w : World) : extends w w.
Proof.
  repeat split; [exact (fun T => T)|]. exists [].
  split; [now rewrite app_nil_r | simpl; lia].
Qed.

Lemma login_extends (server : Server) (w : World) :
  extends w (snd (login server w)).
Proof.
  destruct (login_world server w) as (Hc & Hs & Ht).
  repeat split; try apply Hs; [exact Ht|].
  exists [login_call (this w)]. split; [exact Hc | simpl; lia].
Qed.

Lemma request_extends (server : Server) (method endpoint : string)
    (data : Body) (w : World) :
  extends w (snd (request server method endpoint data w)).
Proof.
  destruct (needs_login (this w)) eqn:Hn.
  - destruct (login_world server w) as (Hc & Hs & Ht).
    destruct (login server w) as [[[]|e] w1] eqn:L; simpl in Hc, Hs, Ht.
    + rewrite <- (lazy_login_needed _ _ Hn) in L.
      rewrite (request_dispatch _ _ _ _ _ _ L), dispatch_result_world.
      repeat split; try apply Hs; [exact Ht|]. simpl.
      exists [login_call (this w); api_call (this w1) method endpoint data].
      split; [now rewrite Hc, <- app_assoc | simpl; lia].
    + rewrite <- (lazy_login_needed _ _ Hn) in L.
      rewrite (request_login_throws _ _ _ _ _ _ _ L). simpl.
      repeat split; try apply Hs; [exact Ht|].
      exists [login_call (this w)]. split; [exact Hc | simpl; lia].
  - rewrite (request_dispatch _ _ _ _ _ _ (lazy_login_skipped server w Hn)),
      dispatch_result_world.
    repeat split; [exact (fun T => T)|].
    exists [api_call (this w) method endpoint data]. split; [reflexivity|].
    simpl; lia.
Qed.

Lemma logout_extends (server : Server) (w : World) :
  extends w (snd (logout server w)).
Proof.
  pose proof (request_extends server "POST" "auth/logout" NoBody w) as H.
  unfold logout, bind.
  destruct (request server "POST" "auth/logout" NoBody w) as [[v|e] w1];
    [|exact H].
  destruct H as (Hs & Ht & Hc). simpl in *.
  repeat split; try apply Hs; [|exact Hc].
  intros _. unfold token_ok. simpl. discriminate.
Qed.

Lemma addTorrent_extends (server : Server) (params : TorrentAddParameters.t)
    (w : World) :
  extends w (snd (addTorrent server params w)).
Proof.
  unfold addTorrent, bind, lift.
  destruct (addTorrent_formData params) as [fd|e].
  - apply request_extends.
  - apply extends_refl.
Qed.

Lemma setCategory_world (server : Server) (h c : string) (w : World) :
  snd (setCategory server h c w)
  = snd (request server "POST" "torrents/setCategory"
           (ObjectBody [("hashes", h); ("category", c)]) w).
Proof.
  unfold setCategory, bind.
  destruct (request server "POST" "torrents/setCategory" _ w) as [[v|e] w1];
    [|reflexivity].
  destruct (negb (is_true v)); reflexivity.
Qed.

Lemma getTorrentPeers_world (server : Server) (nt : string -> bool)
    (h : string) (w : World) :
  snd (getTorrentPeers server nt h w)
  = snd (request server "GET" ("torrents/peers?hash=" ++ h) NoBody w).
Proof.
  unfold getTorrentPeers, bind.
  destruct (request server "GET" _ NoBody w) as [[v|e] w1]; [|reflexivity].
  destruct (negb (truthy nt v)); reflexivity.
Qed.

Lemma getPreferences_world (server : Server) (nt : string -> bool)
    (w : World) :
  snd (getPreferences server nt w)
  = snd (request server "GET" "app/preferences" NoBody w).
Proof.
  unfold getPreferences, bind.
  destruct (request server "GET" _ NoBody w) as [[v|e] w1]; [|reflexivity].
  destruct (negb (truthy nt v)); reflexivity.
Qed.

Lemma after_extends (server : Server) (nt : string -> bool) (op : Operation)
    (w : World) :
  extends w (after server nt op w).
Proof.
  destruct op; simpl.
  - apply login_extends.
  - apply logout_extends.
  - apply request_extends.
  - apply request_extends.
  - apply addTorrent_extends.
  - apply request_extends.
  - apply request_extends.
  - apply request_extends.
  - apply request_extends.
  - rewrite setCategory_world. apply request_extends.
  - rewrite getTorrentPeers_world. apply request_extends.
  - rewrite getPreferences_world. apply request_extends.
Qed.

Lemma token_ok_cookie (c : QBittorrentClient) :
  token_ok c -> (cookie_headers c = [] <-> sid c = None).
Proof.
  unfold token_ok, cookie_headers. intros T.
  destruct (sid c) as [[|x s]|]; split; intros H;
    try discriminate; try reflexivity.
  now elim T.
Qed.

Lemma after_all_extends (server : Server) (nt : string -> bool)
    (ops : list Operation) :
  forall w,
    same_config (this w) (this (after_all server nt ops w))
    /\ (token_ok (this w) -> token_ok (this (after_all server nt ops w)))
    /\ exists l,
         calls (after_all server nt ops w) = (calls w ++ l)%list
         /\ length l <= 2 * length ops.
Proof.
  induction ops as [|op rest IH]; intros w; simpl after_all.
  - repeat split; [exact (fun T => T)|]. exists [].
    split; [now rewrite app_nil_r | simpl; lia].
  - destruct (after_extends server nt op w)
      as ((B1 & U1 & P1) & T1 & l1 & C1 & L1).
    destruct (IH (after server nt op w)) as ((B2 & U2 & P2) & T2 & l2 & C2 & L2).
    repeat split; try congruence.
    + intros T. exact (T2 (T1 T)).
    + exists (l1 ++ l2)%list. split.
      * now rewrite C2, C1, app_assoc.
      * rewrite length_app. simpl length. lia.
Qed.

(** X9: whatever operations are run on a client, in whatever order and
    with whatever outcomes, the base URL and the credentials stay those
    given at construction, no operation removes or rewrites a call already
    issued, and at most two calls are added per operation; a token that is
    held is never the empty string, so a dispatch sends no Cookie header
    exactly when no token is held. *)
Theorem operations_keep_the_client
    (server : Server) (number_truthy : string -> bool)
    (ops : list Operation) :
  (forall config,
      same_config (constructor config)
        (this (after_all server number_truthy ops (created config)))
      /\ token_ok (this (after_all server number_truthy ops (created config)))
      /\ (cookie_headers
            (this (after_all server number_truthy ops (created config))) = []
          <-> sid (this (after_all server number_truthy ops (created config)))
              = None)
      /\ length (calls (after_all server number_truthy ops (created config)))
         <= 2 * length ops)
  /\ (forall w,
         same_config (this w) (this (after_all server number_truthy ops w))
         /\ exists l,
              calls (after_all server number_truthy ops w)
              = (calls w ++ l)%list
              /\ length l <= 2 * length ops).
Proof.
  split.
  - intros config.
    destruct (after_all_extends server number_truthy ops (created config))
      as (Hs & Ht & l & Hc & Hl).
    assert (T : token_ok
                  (this (after_all server number_truthy ops (created config)))).
    { apply Ht. unfold token_ok. simpl. discriminate. }
    repeat split; try apply Hs; try exact T.
    + apply (proj1 (token_ok_cookie _ T)).
    + apply (proj2 (token_ok_cookie _ T)).
    + rewrite Hc. simpl. exact Hl.
  - intros w.
    destruct (after_all_extends server number_truthy ops w)
      as (Hs & _ & Hc).
    split; [exact Hs | exact Hc].
Qed.

Lemma operations_keep_the_client_witness :
  same_config (constructor More.readme_config)
    (this (after_all Sample.accepting More.mantissa_nonzero More.session
             (created More.readme_config)))
  /\ length (calls (after_all Sample.accepting More.mantissa_nonzero
                      More.session (created More.readme_config)))
     <= 8.
Proof.
  destruct (proj1 (operations_keep_the_client Sample.accepting
                     More.mantissa_nonzero More.session)
              More.readme_config) as (Hs & _ & _ & Hl).
  split; [exact Hs | exact Hl].
Defined.

Lemma request_needs_login_calls (server : Server) (method endpoint : string)
    (data : Body) (w : World) :
  needs_login (this w) = true ->
  exists rest,
    calls (snd (request server method endpoint data w))
    = (calls w ++ login_call (this w) :: rest)%list.
Proof.
  intros Hn. pose proof (proj1 (login_world server w)) as Hc.
  destruct (login server w) as [[[]|e] w1] eqn:L; simpl in Hc;
    rewrite <- (lazy_login_needed _ _ Hn) in L.
  - rewrite (request_dispatch _ _ _ _ _ _ L), dispatch_result_world. simpl.
    exists [api_call (this w1) method endpoint data].
    now rewrite Hc, <- app_assoc.
  - rewrite (request_login_throws _ _ _ _ _ _ _ L). simpl.
    exists []. exact Hc.
Qed.

(** X10: after a [logout] that returned, the client holds no token, so on
    a client with both credentials the next dispatch starts by logging in
    again: the first call it issues is the POST to [auth/login]. *)
Theorem logout_then_request_logs_in
    (server : Server) (w w1 : World)
    (method endpoint : string) (data : Body) :
  logout server w = (Return tt, w1) ->
  has_credentials (this w) = true ->
  sid (this w1) = None
  /\ exists rest,
       calls (snd (request server method endpoint data w1))
       = (calls w1 ++ login_call (this w1) :: rest)%list.
Proof.
  intros Hl Hc.
  pose proof (request_extends server "POST" "auth/logout" NoBody w)
    as ((_ & Hu & Hp) & _).
  unfold logout, bind in Hl.
  destruct (request server "POST" "auth/logout" NoBody w) as [[v|e] w0];
    [|discriminate].
  simpl in Hu, Hp. unfold assign_sid in Hl. injection Hl as <-.
  split; [reflexivity|].
  apply request_needs_login_calls. unfold needs_login. simpl.
  unfold has_credentials in Hc. now rewrite <- Hu, <- Hp.
Qed.

Lemma logout_then_request_logs_in_witness :
  exists rest,
    calls (snd (request Sample.accepting "GET" "app/version" NoBody
                  (snd (logout Sample.accepting Sample.holding))))
    = (calls (snd (logout Sample.accepting Sample.holding))
       ++ login_call (this (snd (logout Sample.accepting Sample.holding)))
          :: rest)%list.
Proof.
  apply (proj2 (logout_then_request_logs_in
                  Sample.accepting Sample.holding
                  (snd (logout Sample.accepting Sample.holding))
                  "GET" "app/version" NoBody eq_refl eq_refl)).
Defined.

(* ================================================================== *)
(** ** Further properties: the form of addTorrent *)
(* ================================================================== *)

Lemma getAll_urls (o : option (OneOrMany string)) :
  getAll "urls" (urls_field o []) = urls_entry o.
Proof. destruct o as [[[|c r]|l]|]; reflexivity. Qed.

(** X11: in the form that [addTorrent] builds, a list of URLs gives one
    field named [urls] whose text is the URLs joined with newlines (also
    when the list is empty: the text is then empty); a single non-empty URL
    gives one field with that URL; an absent or empty-string [urls] gives
    no [urls] field. *)
Theorem urls_field_joined (params : TorrentAddParameters.t) (fd : FormData) :
  addTorrent_formData params = Return fd ->
  getAll "urls" fd = urls_entry (TorrentAddParameters.urls params).
Proof.
  intros H. destruct (addTorrent_formData_shape _ _ H) as (fd1 & -> & _ & Hloop).
  destruct (TorrentAddParameters.torrents params) as [ts|]; [|contradiction].
  scalar_field_chain.
  rewrite (getAll_forEach_torrent "urls" _ eq_refl _ _ _ Hloop).
  apply getAll_urls.
Qed.

Lemma urls_field_joined_witness :
  exists fd,
    addTorrent_formData More.mixed = Return fd
    /\ getAll "urls" fd
       = [Text ("magnet:?xt=urn:btih:a" ++ String "010"%char EmptyString
                ++ "magnet:?xt=urn:btih:b")].
Proof.
  eexists. split; [reflexivity|].
  apply (urls_field_joined More.mixed _ eq_refl).
Defined.

Lemma names_append_if (cond : bool) (n v : string) (fd : FormData) :
  map fst (append_if cond n v fd) = (map fst fd ++ name_if cond n)%list.
Proof.
  unfold append_if, append, name_if. destruct cond.
  - now rewrite map_app.
  - now rewrite app_nil_r.
Qed.

Lemma names_urls_field (o : option (OneOrMany string)) :
  map fst (urls_field o []) = name_if (truthy_urls o) "urls".
Proof. destruct o as [[[|c r]|l]|]; reflexivity. Qed.

Lemma names_forEach_torrent (torrents : list TorrentFile.t) :
  forall index fd fd',
    forEach_torrent torrents index fd = Return fd' ->
    map fst fd' = (map fst fd ++ repeat "torrents" (length torrents))%list.
Proof.
  induction torrents as [|t rest IH]; intros index fd fd'; simpl.
  - intros E; injection E as <-. now rewrite app_nil_r.
  - unfold append_torrent. destruct (blob_part t) as [part|e]; [|discriminate].
    intros E. rewrite (IH _ _ _ E). unfold append.
    now rewrite map_app, <- app_assoc.
Qed.

(** X12: the fields of the form come in one fixed order: the [urls] field
    if there is one, then one [torrents] field per unit, then those of
    savepath, category, paused, skip_checking, rename, upLimit and dlLimit
    whose option is truthy; the form holds no other field and none twice
    except [torrents]. *)
Theorem form_field_order (params : TorrentAddParameters.t) (fd : FormData) :
  addTorrent_formData params = Return fd ->
  map fst fd = field_names params.
Proof.
  intros H. destruct (addTorrent_formData_shape _ _ H) as (fd1 & -> & _ & Hloop).
  unfold field_names.
  destruct (TorrentAddParameters.torrents params) as [ts|]; [|contradiction].
  unfold scalar_fields, string_field, bool_field, number_field.
  rewrite !names_append_if, (names_forEach_torrent _ _ _ _ Hloop),
    names_urls_field.
  now rewrite <- !app_assoc.
Qed.

Lemma form_field_order_witness :
  exists fd,
    addTorrent_formData More.mixed = Return fd
    /\ map fst fd = ["urls"; "torrents"; "savepath"; "upLimit"].
Proof.
  eexists. split; [reflexivity|].
  apply (form_field_order More.mixed _ eq_refl).
Defined.

(* ================================================================== *)
(** ** Further properties: the query of getTorrentInfo *)
(* ================================================================== *)

Lemma query_if_string (n : string) (o : option string) (q : URLSearchParams) :
  query_if (truthy_string o) n (or_empty o) q = (q ++ string_param n o)%list.
Proof.
  destruct o as [[|c r]|]; simpl; unfold query_if; simpl;
    try reflexivity; now rewrite app_nil_r.
Qed.

Lemma query_if_bool (n : string) (o : option bool) (q : URLSearchParams) :
  query_if (truthy_bool o) n
    (match o with Some b => bool_toString b | None => EmptyString end) q
  = (q ++ bool_param n o)%list.
Proof.
  destruct o as [[|]|]; simpl; unfold query_if; simpl;
    try reflexivity; now rewrite app_nil_r.
Qed.

Lemma query_if_number (n : string) (o : option Z) (q : URLSearchParams) :
  query_if (truthy_number o) n
    (match o with Some z => number_toString z | None => EmptyString end) q
  = (q ++ number_param n o)%list.
Proof.
  destruct o as [z|]; simpl; unfold query_if; simpl.
  - destruct (Z.eqb z 0); simpl; [now rewrite app_nil_r | reflexivity].
  - now rewrite app_nil_r.
Qed.

(** X13: the query of [getTorrentInfo] holds, in this order, the
    parameters filter, category, sort, reverse, limit, offset and hashes,
    each at most once and only when its option is truthy: an empty category
    or sort, [reverse: false], a limit or offset of [0] and an empty hash
    string give no parameter, while an empty list of hashes gives
    [hashes] with an empty value. *)
Theorem getTorrentInfo_query_exact (params : TorrentInfoParameters.t) :
  getTorrentInfo_query params
  = (filter_param (TorrentInfoParameters.filter params)
     ++ string_param "category" (TorrentInfoParameters.category params)
     ++ string_param "sort" (TorrentInfoParameters.sort params)
     ++ bool_param "reverse" (TorrentInfoParameters.reverse params)
     ++ number_param "limit" (TorrentInfoParameters.limit params)
     ++ number_param "offset" (TorrentInfoParameters.offset params)
     ++ hashes_param (TorrentInfoParameters.hashes params))%list.
Proof.
  unfold getTorrentInfo_query.
  rewrite !query_if_string, query_if_bool, !query_if_number.
  assert (Hf : match TorrentInfoParameters.filter params with
               | Some f =>
                   params_append []
                     "filter" (TorrentInfoParameters.Filter_toString f)
               | None => []
               end
               = filter_param (TorrentInfoParameters.filter params)).
  { destruct (TorrentInfoParameters.filter params); reflexivity. }
  rewrite Hf.
  destruct (TorrentInfoParameters.hashes params) as [[[|c r]|l]|];
    unfold query_if, hashes_param, params_append; simpl;
    rewrite <- ?app_assoc, ?app_nil_r; reflexivity.
Qed.

Example getTorrentInfo_query_paged :
  getTorrentInfo_query More.paged
  = [("filter", "seeding"); ("category", "movies"); ("limit", "50");
     ("hashes", "abc")].
Proof. reflexivity. Qed.

(* ================================================================== *)
(** ** Further properties: checks on the decoded answer *)
(* ================================================================== *)

Lemma parseResponse_true (txt : string) :
  parseResponse txt = Return (VJson (Json.JBool true))
  <-> txt = "Ok." \/ Json.parse txt = Return (Json.JBool true).
Proof.
  unfold parseResponse. destruct (String.eqb txt "Ok.") eqn:E.
  - apply String.eqb_eq in E. split; [now left | reflexivity].
  - split.
    + destruct (Json.parse txt) as [j|e]; [|discriminate].
      intros H; injection H as ->. now right.
    + intros [-> | ->]; [discriminate | reflexivity].
Qed.

Lemma is_true_iff (v : Value) :
  is_true v = true <-> v = VJson (Json.JBool true).
Proof.
  split; [|now intros ->].
  destruct v as [|[| [|] | | | |]|]; try discriminate. reflexivity.
Qed.

(** X14: once the lazy login is behind it, [setCategory] returns normally
    exactly when the answer to its POST has a body that is [Ok.] or parses
    as the JSON literal [true]; an answer without a body, or with a body
    that decodes to anything else, makes it throw
    [Failed to set category]. *)
Theorem setCategory_needs_true
    (server : Server) (torrentHash category : string) (w w1 : World) :
  lazy_login server w = (Return tt, w1) ->
  ((exists w', setCategory server torrentHash category w = (Return tt, w'))
   <-> exists r txt,
         server (calls w1)
           (api_call (this w1) "POST" "torrents/setCategory"
              (ObjectBody [("hashes", torrentHash); ("category", category)]))
         = Resolves r
         /\ response_text r = Some txt
         /\ (txt = "Ok." \/ Json.parse txt = Return (Json.JBool true)))
  /\ (forall r,
         server (calls w1)
           (api_call (this w1) "POST" "torrents/setCategory"
              (ObjectBody [("hashes", torrentHash); ("category", category)]))
         = Resolves r ->
         (response_text r = None
          \/ exists txt v, response_text r = Some txt
                           /\ parseResponse txt = Return v
                           /\ v <> VJson (Json.JBool true)) ->
         fst (setCategory server torrentHash category w)
         = Throw (Error "Failed to set category")).
Proof.
  intros Hl. unfold setCategory, bind.
  rewrite (request_dispatch _ _ _ _ _ _ Hl). unfold dispatch_result.
  set (call := api_call (this w1) "POST" "torrents/setCategory" _).
  split; [split|].
  - intros (w' & H). destruct (server (calls w1) call) as [e|r];
      [discriminate|].
    destruct (response_text r) as [txt|] eqn:Ht; [|discriminate].
    exists r, txt. split; [reflexivity|]. split; [exact Ht|].
    apply parseResponse_true.
    destruct (parseResponse txt) as [v|e]; [|discriminate].
    destruct (is_true v) eqn:T; [|discriminate].
    apply is_true_iff in T. now subst v.
  - intros (r & txt & -> & -> & H). apply parseResponse_true in H.
    rewrite H. now eexists.
  - intros r -> [-> | (txt & v & -> & -> & Hv)]; [reflexivity|].
    destruct (is_true v) eqn:T; [|reflexivity].
    apply is_true_iff in T. contradiction.
Qed.

Lemma setCategory_needs_true_witness :
  (exists w',
      setCategory Sample.accepting "abc" "movies" Sample.holding
      = (Return tt, w'))
  /\ fst (setCategory More.silent "abc" "movies" Sample.holding)
     = Throw (Error "Failed to set category").
Proof.
  split.
  - apply (proj1 (setCategory_needs_true Sample.accepting "abc" "movies"
                    Sample.holding Sample.holding eq_refl)).
    eexists _, "Ok.". repeat split. now left.
  - eapply (proj2 (setCategory_needs_true More.silent "abc" "movies"
                     Sample.holding Sample.holding eq_refl)).
    + reflexivity.
    + now left.
Defined.

(** X15: [getTorrentPeers] and [getPreferences] never return a falsy
    value.  Once the lazy login is behind them, an answer without a body,
    or with a body that decodes to [null], [false] or the empty string,
    makes them throw their own failure, while a body that decodes to an
    array or an object is returned as it is, also when it is empty. *)
Theorem checked_queries_return_truthy
    (server : Server) (number_truthy : string -> bool) :
  (forall h w v w',
      getTorrentPeers server number_truthy h w = (Return v, w') ->
      truthy number_truthy v = true)
  /\ (forall w v w',
         getPreferences server number_truthy w = (Return v, w') ->
         truthy number_truthy v = true)
  /\ (forall w w1 r,
         lazy_login server w = (Return tt, w1) ->
         server (calls w1) (api_call (this w1) "GET" "app/preferences" NoBody)
         = Resolves r ->
         (response_text r = None ->
          fst (getPreferences server number_truthy w)
          = Throw (Error "Failed to retrieve preferences"))
         /\ (forall txt v,
                response_text r = Some txt ->
                parseResponse txt = Return v ->
                fst (getPreferences server number_truthy w)
                = if truthy number_truthy v then Return v
                  else Throw (Error "Failed to retrieve preferences")))
  /\ (forall h w w1 r,
         lazy_login server w = (Return tt, w1) ->
         server (calls w1)
           (api_call (this w1) "GET" ("torrents/peers?hash=" ++ h) NoBody)
         = Resolves r ->
         (response_text r = None ->
          fst (getTorrentPeers server number_truthy h w)
          = Throw (Error "Failed to retrieve torrent peers"))
         /\ (forall txt v,
                response_text r = Some txt ->
                parseResponse txt = Return v ->
                fst (getTorrentPeers server number_truthy h w)
                = if truthy number_truthy v then Return v
                  else Throw (Error "Failed to retrieve torrent peers")))
  /\ (forall items members,
         truthy number_truthy (VJson (Json.JArray items)) = true
         /\ truthy number_truthy (VJson (Json.JObject members)) = true
         /\ truthy number_truthy (VJson Json.JNull) = false
         /\ truthy number_truthy (VJson (Json.JBool false)) = false
         /\ truthy number_truthy (VJson (Json.JString EmptyString)) = false
         /\ truthy number_truthy VUndefined = false).
Proof.
  split; [|split; [|split; [|split]]].
  - intros h w v w'. unfold getTorrentPeers, bind.
    destruct (request server "GET" _ NoBody w) as [[v0|e] w0];
      [|discriminate].
    destruct (truthy number_truthy v0) eqn:T; simpl; [|discriminate].
    intros H; injection H as <- _. exact T.
  - intros w v w'. unfold getPreferences, bind.
    destruct (request server "GET" _ NoBody w) as [[v0|e] w0];
      [|discriminate].
    destruct (truthy number_truthy v0) eqn:T; simpl; [|discriminate].
    intros H; injection H as <- _. exact T.
  - intros w w1 r Hl Hs. unfold getPreferences, bind.
    rewrite (request_dispatch _ _ _ _ _ _ Hl). unfold dispatch_result.
    rewrite Hs. split.
    + intros ->. reflexivity.
    + intros txt v -> ->. destruct (truthy number_truthy v); reflexivity.
  - intros h w w1 r Hl Hs. unfold getTorrentPeers, bind.
    rewrite (request_dispatch _ _ _ _ _ _ Hl). unfold dispatch_result.
    rewrite Hs. split.
    + intros ->. reflexivity.
    + intros txt v -> ->. destruct (truthy number_truthy v); reflexivity.
  - intros items members. repeat split.
Qed.

Lemma checked_queries_return_truthy_witness :
  fst (getTorrentPeers (More.serving "[]") More.mantissa_nonzero "abc"
         Sample.holding)
  = Return (VJson (Json.JArray []))
  /\ fst (getPreferences (More.serving "null") More.mantissa_nonzero
            Sample.holding)
     = Throw (Error "Failed to retrieve preferences")
  /\ fst (getPreferences More.silent More.mantissa_nonzero Sample.holding)
     = Throw (Error "Failed to retrieve preferences").
Proof.
  destruct (checked_queries_return_truthy (More.serving "[]")
              More.mantissa_nonzero) as (_ & _ & _ & Hpeers & _).
  destruct (checked_queries_return_truthy (More.serving "null")
              More.mantissa_nonzero) as (_ & _ & Hprefs & _).
  destruct (checked_queries_return_truthy More.silent
              More.mantissa_nonzero) as (_ & _ & Hsilent & _).
  split; [|split].
  - apply (proj2 (Hpeers "abc" Sample.holding Sample.holding _
                    eq_refl eq_refl) "[]" (VJson (Json.JArray [])));
      reflexivity.
  - apply (proj2 (Hprefs Sample.holding Sample.holding _ eq_refl eq_refl)
             "null" (VJson Json.JNull)); reflexivity.
  - apply (proj1 (Hsilent Sample.holding Sample.holding _ eq_refl eq_refl)).
    reflexivity.
Defined.

(* ================================================================== *)
(** ** Further properties: the hash in the URL of getTorrentPeers *)
(* ================================================================== *)

Lemma alnum_plain (c : ascii) :
  is_alnum c = true ->
  Ascii.eqb c "&"%char = false /\ Ascii.eqb c "="%char = false
  /\ Ascii.eqb c "+"%char = false /\ Ascii.eqb c "%"%char = false.
Proof.
  destruct c as [[] [] [] [] [] [] [] []]; intros H;
    try discriminate H; repeat split.
Qed.

Lemma all_alnum_plain (s : string) :
  all_alnum s = true ->
  mentions "&"%char s = false /\ mentions "="%char s = false
  /\ form_decode s = s.
Proof.
  induction s as [|c r IH]; simpl; [repeat split|].
  intros H. apply andb_true_iff in H as [Hc Hr].
  destruct (alnum_plain c Hc) as (Ha & He & Hp & Hq).
  destruct (IH Hr) as (IHa & IHe & IHd).
  rewrite Ha, He, Hp, Hq, IHa, IHe, IHd. repeat split.
Qed.

Lemma parse_hash_query (h : string) :
  all_alnum h = true -> params_parse ("hash=" ++ h) = [("hash", h)].
Proof.
  intros H. destruct (all_alnum_plain h H) as (Ha & He & Hd).
  unfold params_parse.
  rewrite split_on_last by (simpl; exact Ha).
  simpl. now rewrite Hd.
Qed.

Lemma parse_hash_query_injected (h k v : string) :
  all_alnum h = true -> all_alnum k = true -> all_alnum v = true ->
  params_parse ("hash=" ++ h ++ "&" ++ k ++ "=" ++ v) = [("hash", h); (k, v)].
Proof.
  intros Hh Hk Hv.
  destruct (all_alnum_plain h Hh) as (Ha & He & Hd).
  destruct (all_alnum_plain k Hk) as (Ka & Ke & Kd).
  destruct (all_alnum_plain v Hv) as (Va & Ve & Vd).
  unfold params_parse.
  change ("hash=" ++ h ++ "&" ++ k ++ "=" ++ v)
    with ("hash=" ++ (h ++ String "&"%char (k ++ String "="%char v))).
  assert (E : "hash=" ++ (h ++ String "&"%char (k ++ String "="%char v))
              = ("hash=" ++ h) ++ String "&"%char (k ++ String "="%char v)).
  { reflexivity. }
  rewrite E, split_on_segment by (simpl; exact Ha).
  rewrite split_on_last
    by (rewrite mentions_append; simpl; now rewrite Ka, Va).
  assert (N : nonempty (k ++ String "="%char v) = true) by now destruct k.
  simpl. rewrite N. simpl.
  rewrite cut_pair_at by exact Ke.
  now rewrite Hd, Kd, Vd.
Qed.

(** X16: [getTorrentPeers] puts the hash into the URL as it is, without
    encoding it.  On a client that holds a token the single call goes to
    [<baseUrl>/api/v2/torrents/peers?hash=<hash>]; for a hash of letters
    and digits the query reads back as the one parameter [hash], but a hash
    text that goes on with [&k=v] reads back as two parameters. *)
Theorem getTorrentPeers_hash_verbatim
    (server : Server) (number_truthy : string -> bool)
    (w : World) (s h : string) :
  sid (this w) = Some s ->
  nonempty s = true ->
  exists query,
    calls (snd (getTorrentPeers server number_truthy h w))
    = (calls w
       ++ [ {| call_url :=
                 baseUrl (this w) ++ "/api/v2/torrents/peers?" ++ query;
               call_method := "GET";
               call_headers := [("Cookie", ("SID=" ++ s)%string)];
               call_body := NoBody |} ])%list
    /\ query = "hash=" ++ h
    /\ (all_alnum h = true -> params_parse query = [("hash", h)])
    /\ (forall h1 k v,
           h = h1 ++ "&" ++ k ++ "=" ++ v ->
           all_alnum h1 = true -> all_alnum k = true -> all_alnum v = true ->
           params_parse query = [("hash", h1); (k, v)]).
Proof.
  intros Hs Hn. exists ("hash=" ++ h).
  split; [|split; [reflexivity | split]].
  - rewrite getTorrentPeers_world.
    assert (Hl : needs_login (this w) = false).
    { unfold needs_login. rewrite Hs. simpl. now rewrite Hn. }
    rewrite (request_dispatch _ _ _ _ _ _ (lazy_login_skipped server w Hl)),
      dispatch_result_world.
    unfold api_call, cookie_headers. rewrite Hs, Hn. reflexivity.
  - apply parse_hash_query.
  - intros h1 k v -> H1 Hk Hv. now apply parse_hash_query_injected.
Qed.

Lemma getTorrentPeers_hash_verbatim_witness :
  exists query,
    calls (snd (getTorrentPeers Sample.accepting More.mantissa_nonzero
                  "abc&deleteFiles=true" Sample.holding))
    = [ {| call_url := "http://localhost:8080/api/v2/torrents/peers?" ++ query;
           call_method := "GET";
           call_headers := [("Cookie", "SID=old")];
           call_body := NoBody |} ]
    /\ params_parse query = [("hash", "abc"); ("deleteFiles", "true")].
Proof.
  destruct (getTorrentPeers_hash_verbatim Sample.accepting
              More.mantissa_nonzero Sample.holding "old"
              "abc&deleteFiles=true" eq_refl eq_refl)
    as (query & Hc & _ & _ & Hi).
  exists query. split; [exact Hc|].
  apply (Hi "abc" "deleteFiles" "true"); reflexivity.
Defined.

(* ================================================================== *)
(** ** Further properties: strings in answers *)
(* ================================================================== *)

Lemma pmap_string {A} (f : A -> Json.t) (p : Json.Parsed A)
    (s rest : string) :
  (forall a, f a <> Json.JString s) ->
  Json.pmap f p <> Json.Good (Json.JString s) rest.
Proof.
  intros Hf. destruct p as [| |a r]; simpl; try discriminate.
  intros H; injection H as H _. exact (Hf a H).
Qed.

(** A parse that gives a string started, after whitespace, at a quote. *)
Lemma value_string_quoted (fuel : nat) (txt s rest : string) :
  Json.value fuel txt = Json.Good (Json.JString s) rest ->
  exists r, strip_prefix Json.quote (Json.skip_ws txt) = Some r.
Proof.
  destruct fuel as [|f]; [discriminate|]. rewrite JsonFuel.value_S.
  destruct (strip_prefix "{" (Json.skip_ws txt)) as [r|].
  { destruct (strip_prefix "}" (Json.skip_ws r)); [discriminate|].
    intros H. now apply pmap_string in H. }
  destruct (strip_prefix "[" (Json.skip_ws txt)) as [r|].
  { destruct (strip_prefix "]" (Json.skip_ws r)); [discriminate|].
    intros H. now apply pmap_string in H. }
  unfold Json.scalar.
  destruct (strip_prefix Json.quote (Json.skip_ws txt)) as [r|];
    [intros _; now exists r|].
  destruct (strip_prefix "true" (Json.skip_ws txt)); [discriminate|].
  destruct (strip_prefix "false" (Json.skip_ws txt)); [discriminate|].
  destruct (strip_prefix "null" (Json.skip_ws txt)); [discriminate|].
  destruct (Json.number (Json.skip_ws txt)) as [[]|]; discriminate.
Qed.

Lemma parseResponse_string_quoted (txt s : string) :
  parseResponse txt = Return (VJson (Json.JString s)) ->
  exists r, strip_prefix Json.quote (Json.skip_ws txt) = Some r.
Proof.
  unfold parseResponse. destruct (String.eqb txt "Ok."); [discriminate|].
  unfold Json.parse.
  destruct (Json.value (Json.fuel_for txt) txt) as [| |j rest] eqn:E;
    try discriminate.
  destruct (Json.skip_ws rest); [|discriminate].
  intros H. injection H as ->. eapply value_string_quoted. exact E.
Qed.

(** X17: [getAPIVersion], declared to give a string, gives one only for
    an answer whose body is a quoted JSON string: once the lazy login is
    behind it, if it returns a string then the answer had a body whose first
    character after whitespace is a double quote.  A body that does not
    start so is never returned as a string; unless it is JSON of another
    kind or [Ok.], the call fails with a request failure. *)
Theorem getAPIVersion_string_is_quoted
    (server : Server) (w w1 : World) :
  lazy_login server w = (Return tt, w1) ->
  (forall s w',
      getAPIVersion server w = (Return (VJson (Json.JString s)), w') ->
      exists r txt rest,
        server (calls w1) (api_call (this w1) "GET" "app/version" NoBody)
        = Resolves r
        /\ response_text r = Some txt
        /\ strip_prefix Json.quote (Json.skip_ws txt) = Some rest)
  /\ (forall r txt,
         server (calls w1) (api_call (this w1) "GET" "app/version" NoBody)
         = Resolves r ->
         response_text r = Some txt ->
         strip_prefix Json.quote (Json.skip_ws txt) = None ->
         txt <> "Ok." ->
         (exists j, Json.parse txt = Return j
                    /\ fst (getAPIVersion server w) = Return (VJson j)
                    /\ forall s, j <> Json.JString s)
         \/ exists e, fst (getAPIVersion server w) = Throw e
                      /\ RequestFailure e).
Proof.
  intros Hl. unfold getAPIVersion.
  rewrite (request_dispatch _ _ _ _ _ _ Hl). unfold dispatch_result. split.
  - intros s w' H.
    destruct (server (calls w1) _) as [e|r]; [discriminate|].
    destruct (response_text r) as [txt|] eqn:Ht; [|discriminate].
    destruct (parseResponse txt) as [v|e] eqn:P; [|discriminate].
    injection H as -> _.
    destruct (parseResponse_string_quoted _ _ P) as (rest & Hq).
    now exists r, txt, rest.
  - intros r txt -> -> Hq Hok.
    destruct (parseResponse txt) as [v|e] eqn:P.
    + left. unfold parseResponse in P. apply String.eqb_neq in Hok.
      rewrite Hok in P.
      destruct (Json.parse txt) as [j|e] eqn:J; [|discriminate].
      injection P as <-. exists j. repeat split.
      intros s ->.
      assert (P' : parseResponse txt = Return (VJson (Json.JString s))).
      { unfold parseResponse. now rewrite Hok, J. }
      destruct (parseResponse_string_quoted _ _ P') as (rest & Hr).
      congruence.
    + right. simpl. eexists. split; [reflexivity|]. eexists. reflexivity.
Qed.

Lemma getAPIVersion_string_is_quoted_witness :
  (exists r txt rest,
      Sample.answering More.quoted_version (calls Sample.holding)
        (api_call (this Sample.holding) "GET" "app/version" NoBody)
      = Resolves r
      /\ response_text r = Some txt
      /\ strip_prefix Json.quote (Json.skip_ws txt) = Some rest)
  /\ exists e,
       fst (getAPIVersion (Sample.answering "v2.8.3") Sample.holding)
       = Throw e
       /\ RequestFailure e.
Proof.
  split.
  - apply (proj1 (getAPIVersion_string_is_quoted
                    (Sample.answering More.quoted_version)
                    Sample.holding Sample.holding eq_refl)
             "v2.8.3"
             (logged Sample.holding
                (api_call (this Sample.holding) "GET" "app/version" NoBody))).
    reflexivity.
  - destruct (proj2 (getAPIVersion_string_is_quoted
                       (Sample.answering "v2.8.3")
                       Sample.holding Sample.holding eq_refl)
                _ "v2.8.3" eq_refl eq_refl eq_refl)
      as [(j & Hj & _) | H].
    + discriminate.
    + discriminate Hj.
    + exact H.
Defined.

(* ================================================================== *)
(** ** Further properties: addTorrent on the network, and logging in once *)
(* ================================================================== *)

Lemma request_held_world (server : Server) (method endpoint : string)
    (data : Body) (w : World) (s : string) :
  sid (this w) = Some s ->
  nonempty s = true ->
  snd (request server method endpoint data w)
  = logged w (call_with (this w) [("Cookie", "SID=" ++ s)]
                method endpoint data).
Proof.
  intros Hs Hn.
  assert (Hl : needs_login (this w) = false).
  { unfold needs_login. rewrite Hs. simpl. now rewrite Hn. }
  rewrite (request_dispatch _ _ _ _ _ _ (lazy_login_skipped server w Hl)),
    dispatch_result_world.
  unfold api_call, call_with, cookie_headers. now rewrite Hs, Hn.
Qed.

(** X18: on a client that holds a token, [addTorrent] touches the network
    only with a complete form: when validation or a unit fails it throws
    and issues no call; otherwise it issues exactly one call, the POST to
    [torrents/add] whose body is the form built from the request. *)
Theorem addTorrent_sends_whole_form
    (server : Server) (params : TorrentAddParameters.t)
    (w : World) (s : string) :
  sid (this w) = Some s ->
  nonempty s = true ->
  match addTorrent_formData params with
  | Return fd =>
      snd (addTorrent server params w)
      = logged w (call_with (this w) [("Cookie", "SID=" ++ s)]
                    "POST" "torrents/add" (FormBody fd))
  | Throw e => addTorrent server params w = (Throw e, w)
  end.
Proof.
  intros Hs Hn. unfold addTorrent, bind, lift.
  destruct (addTorrent_formData params) as [fd|e]; [|reflexivity].
  now apply request_held_world.
Qed.

Lemma addTorrent_sends_whole_form_witness :
  exists fd,
    addTorrent_formData More.mixed = Return fd
    /\ snd (addTorrent Sample.accepting More.mixed Sample.holding)
       = logged Sample.holding
           (call_with (this Sample.holding) [("Cookie", "SID=old")]
              "POST" "torrents/add" (FormBody fd)).
Proof.
  eexists. split; [reflexivity|].
  apply (addTorrent_sends_whole_form Sample.accepting More.mixed
           Sample.holding "old" eq_refl eq_refl).
Defined.

(** X19: the lazy login happens once.  After a dispatch that logged in
    and captured a token, the next dispatch issues a single call, carrying
    that token, and no further login. *)
Theorem request_logs_in_once
    (server : Server) (w : World) (r : Response) (t : string)
    (method endpoint method' endpoint' : string) (data data' : Body) :
  needs_login (this w) = true ->
  server (calls w) (login_call (this w)) = Resolves r ->
  extract_sid (response_data r) = Return (Some t) ->
  snd (request server method' endpoint' data'
         (snd (request server method endpoint data w)))
  = logged (snd (request server method endpoint data w))
      (call_with (this w) [("Cookie", "SID=" ++ t)] method' endpoint' data').
Proof.
  intros Hn H E.
  pose proof (login_success _ _ _ _ H E) as Hl.
  rewrite <- (lazy_login_needed _ _ Hn) in Hl.
  rewrite (request_dispatch _ _ _ _ _ _ Hl), dispatch_result_world.
  rewrite (request_held_world server method' endpoint' data' _ t);
    [reflexivity | reflexivity | exact (extract_sid_truthy _ _ E)].
Qed.

Lemma request_logs_in_once_witness :
  calls (snd (request Sample.accepting "GET" "app/preferences" NoBody
                (snd (request Sample.accepting "GET" "app/version" NoBody
                        Sample.fresh))))
  = [login_call (this Sample.fresh);
     call_with (this Sample.fresh) [("Cookie", "SID=s3cr3t")]
       "GET" "app/version" NoBody;
     call_with (this Sample.fresh) [("Cookie", "SID=s3cr3t")]
       "GET" "app/preferences" NoBody].
Proof.
  rewrite (request_logs_in_once Sample.accepting Sample.fresh _ "s3cr3t"
             "GET" "app/version" "GET" "app/preferences" NoBody NoBody
             eq_refl eq_refl eq_refl).
  reflexivity.
Defined.
